(** * Physics bridge: a shallow embedding of [src/components/Physics.tsx]

    The definitions follow the source file section by section:

    - [JS]          the fragments of the JavaScript semantics the code relies
                    on (exceptions, truthiness of numbers, the array length
                    limit, typed-array conversions);
    - [THREE]       the value types of the scene-graph library the code touches;
    - [SceneGraph]  the world transform of a scene node;
    - [RAPIER]      the handle-based engine interface (descriptors and setters);
    - [Heightfield] [geometryFromHeightfield];
    - [Context]     the values carried by [PhysicsContext] and [RigidBodyContext];
    - [Body]        [RigidBody];
    - [Collider]    [useCollider] and the shape components;
    - [Lifecycle]   the contents the event map can take;
    - [Frame]       the per-frame callback of [Physics];
    - [Scenario], [Faulty], [Quiet]
                    small concrete scenes on which the definitions are run;
    - [BodyDesc], [Registry], [Frames]
                    the body descriptor, sequences of mounts and unmounts,
                    sequences of frames;
    - [Character]   the state machine of [models/ybot.tsx].

    The properties come after the definitions, grouped by component.

    JavaScript numbers are IEEE binary64 values: they are embedded as Rocq's
    primitive floats.  Handles are the engine's non-negative integers. *)

From Stdlib Require Import ZArith Floats Lia.
From stdpp Require Import base option list gmap strings pretty fin_maps.

Set Default Proof Using "Type".

(* ================================================================== *)
(** ** JavaScript fragments *)
(* ================================================================== *)

Module JS.

(** Exceptions the embedded code, or the callbacks it invokes, can raise. *)
Inductive exn : Type :=
| RangeError (message : string)
| TypeError (message : string)
| Error (message : string).

(** Result of running a JavaScript function: it returns or it throws. *)
Inductive outcome (A : Type) : Type :=
| Returned (a : A)
| Raised (e : exn).
Arguments Returned {A} a.
Arguments Raised {A} e.

Definition bind {A B} (m : outcome A) (k : A -> outcome B) : outcome B :=
  match m with
  | Returned a => k a
  | Raised e => Raised e
  end.

Definition returns {A} (m : outcome A) : Prop := exists a, m = Returned a.

(** A JavaScript number. *)
Abbreviation number := float.

(** The number that holds a non-negative integer count or loop counter: the
    nearest binary64 value, which is the integer itself below [2^53]. *)
Definition num (n : nat) : number :=
  SF2Prim (binary_normalize prec emax (Z.of_nat n) 0 false).

(** [ToBoolean] on a number: [0], [-0] and [NaN] are falsy. *)
Definition truthy (v : number) : bool :=
  negb (PrimFloat.eqb v 0%float || PrimFloat.is_nan v).

(** By the rules of the language an ordinary array holds at most [2^32 - 1]
    elements, and [push] past that limit throws a [RangeError].  (A host may
    run out of room for an array before this limit is reached; that is
    outside the language and is not modelled.) *)
Definition MAX_ARRAY_LENGTH : Z := 4294967295.

Definition push {A} (arr : list A) (items : list A) : outcome (list A) :=
  if (Z.of_nat (length arr) + Z.of_nat (length items) <=? MAX_ARRAY_LENGTH)%Z
  then Returned (arr ++ items)
  else Raised (RangeError "Invalid array length").

(** An array that exists: its length is within the limit. *)
Definition fits {A} (arr : list A) : Prop :=
  (Z.of_nat (length arr) <= MAX_ARRAY_LENGTH)%Z.

(** [for (i = 0; i < n; ++i) body] and [for (i = 0; i <= n; ++i) body] run
    the body over [seq 0 n] and [seq 0 (S n)]; the loop state is threaded
    through and an exception leaves the loop. *)
Fixpoint forM {S} (range : list nat) (body : nat -> S -> outcome S) (s : S)
  : outcome S :=
  match range with
  | [] => Returned s
  | i :: rest => bind (body i s) (forM rest body)
  end.

(** Reading a typed array out of range gives [undefined], which arithmetic
    turns into [NaN]. *)
Definition index (arr : list number) (k : nat) : number :=
  match arr !! k with
  | Some v => v
  | None => PrimFloat.nan
  end.

(** Storing a number into a [Float32Array]: rounding to the nearest binary32
    value (ties to even); the result is read back as a binary64 number. *)
Definition fround (v : number) : number :=
  match Prim2SF v with
  | S754_finite s m e =>
      SF2Prim (binary_normalize 24 128 (if s then Z.neg m else Z.pos m) e s)
  | _ => v
  end.

Definition Float32Array (values : list number) : list number := map fround values.

(** Storing an integer into a [Uint32Array]: reduction modulo [2^32]. *)
Definition ToUint32 (v : Z) : Z := (v mod 4294967296)%Z.

Definition Uint32Array (values : list Z) : list Z := map ToUint32 values.

End JS.

Notation "'do' x <- m ; k" := (JS.bind m (fun x => k))
  (at level 10, x name, m at level 100, k at level 200).

(* ================================================================== *)
(** ** Scene-graph value types *)
(* ================================================================== *)

Module THREE.

Record Vector3 := mkVector3 { x : float; y : float; z : float }.

Record Quaternion := mkQuaternion { qx : float; qy : float; qz : float; qw : float }.

Inductive EulerOrder := XYZ | YXZ | ZXY | ZYX | YZX | XZY.

Record Euler := mkEuler { ex : float; ey : float; ez : float; order : EulerOrder }.

(** [new Vector3()], [new Quaternion()], [new Euler()]. *)
Definition Vector3_new : Vector3 := mkVector3 0 0 0.
Definition Quaternion_new : Quaternion := mkQuaternion 0 0 0 1.
Definition Euler_new : Euler := mkEuler 0 0 0 XYZ.

(** [Vector3 | Parameters<Vector3['set']>] and its two siblings: an instance
    or the argument tuple of its [set] method. *)
Inductive Vector3Like :=
| Vector3_obj (v : Vector3)
| Vector3_arr (x y z : float).

Inductive QuaternionLike :=
| Quaternion_obj (q : Quaternion)
| Quaternion_arr (x y z w : float).

Inductive EulerLike :=
| Euler_obj (e : Euler)
| Euler_arr (x y z : float) (order : option EulerOrder).

(** [new Euler().fromArray(a)]: the order is replaced only when the tuple
    carries one. *)
Definition Euler_fromArray (x y z : float) (o : option EulerOrder) : Euler :=
  mkEuler x y z (default (order Euler_new) o).

(** A scene node, reduced to the two properties the bridge writes. *)
Record Object3D := mkObject3D { position : Vector3; quaternion : Quaternion }.

End THREE.

(* ================================================================== *)
(** ** Scene-graph world transforms *)
(* ================================================================== *)

(** The part of the scene-graph library behind [Object3D.getWorldPosition]
    and [Object3D.getWorldQuaternion]: every node composes its local matrix
    from position, quaternion and scale, the world matrix of a node is its
    parent's world matrix times its local matrix, and the world quaternion is
    read back from the world matrix.  The nodes here have the default scale
    [(1, 1, 1)]. *)
Module SceneGraph.
Import THREE.

(** [Matrix4]: [nrc] is the element of row [r] and column [c]; the library's
    [elements] array holds them column by column ([te[0] = n11],
    [te[1] = n21], [te[4] = n12], ...). *)
Record Matrix4 := mkMatrix4 {
  n11 : float; n12 : float; n13 : float; n14 : float;
  n21 : float; n22 : float; n23 : float; n24 : float;
  n31 : float; n32 : float; n33 : float; n34 : float;
  n41 : float; n42 : float; n43 : float; n44 : float
}.

(** [Matrix4.compose(position, quaternion, scale)]. *)
Definition compose (position : Vector3) (quaternion : Quaternion) (scale : Vector3)
  : Matrix4 :=
  let x := qx quaternion in
  let y := qy quaternion in
  let z := qz quaternion in
  let w := qw quaternion in
  let x2 := (x + x)%float in
  let y2 := (y + y)%float in
  let z2 := (z + z)%float in
  let xx := (x * x2)%float in
  let xy := (x * y2)%float in
  let xz := (x * z2)%float in
  let yy := (y * y2)%float in
  let yz := (y * z2)%float in
  let zz := (z * z2)%float in
  let wx := (w * x2)%float in
  let wy := (w * y2)%float in
  let wz := (w * z2)%float in
  let sx := THREE.x scale in
  let sy := THREE.y scale in
  let sz := THREE.z scale in
  {| n11 := ((1 - (yy + zz)) * sx)%float;
     n21 := ((xy + wz) * sx)%float;
     n31 := ((xz - wy) * sx)%float;
     n41 := 0%float;
     n12 := ((xy - wz) * sy)%float;
     n22 := ((1 - (xx + zz)) * sy)%float;
     n32 := ((yz + wx) * sy)%float;
     n42 := 0%float;
     n13 := ((xz + wy) * sz)%float;
     n23 := ((yz - wx) * sz)%float;
     n33 := ((1 - (xx + yy)) * sz)%float;
     n43 := 0%float;
     n14 := THREE.x position;
     n24 := THREE.y position;
     n34 := THREE.z position;
     n44 := 1%float |}.

(** [Matrix4.multiplyMatrices(a, b)]. *)
Definition multiplyMatrices (a b : Matrix4) : Matrix4 :=
  {| n11 := (n11 a * n11 b + n12 a * n21 b + n13 a * n31 b + n14 a * n41 b)%float;
     n12 := (n11 a * n12 b + n12 a * n22 b + n13 a * n32 b + n14 a * n42 b)%float;
     n13 := (n11 a * n13 b + n12 a * n23 b + n13 a * n33 b + n14 a * n43 b)%float;
     n14 := (n11 a * n14 b + n12 a * n24 b + n13 a * n34 b + n14 a * n44 b)%float;
     n21 := (n21 a * n11 b + n22 a * n21 b + n23 a * n31 b + n24 a * n41 b)%float;
     n22 := (n21 a * n12 b + n22 a * n22 b + n23 a * n32 b + n24 a * n42 b)%float;
     n23 := (n21 a * n13 b + n22 a * n23 b + n23 a * n33 b + n24 a * n43 b)%float;
     n24 := (n21 a * n14 b + n22 a * n24 b + n23 a * n34 b + n24 a * n44 b)%float;
     n31 := (n31 a * n11 b + n32 a * n21 b + n33 a * n31 b + n34 a * n41 b)%float;
     n32 := (n31 a * n12 b + n32 a * n22 b + n33 a * n32 b + n34 a * n42 b)%float;
     n33 := (n31 a * n13 b + n32 a * n23 b + n33 a * n33 b + n34 a * n43 b)%float;
     n34 := (n31 a * n14 b + n32 a * n24 b + n33 a * n34 b + n34 a * n44 b)%float;
     n41 := (n41 a * n11 b + n42 a * n21 b + n43 a * n31 b + n44 a * n41 b)%float;
     n42 := (n41 a * n12 b + n42 a * n22 b + n43 a * n32 b + n44 a * n42 b)%float;
     n43 := (n41 a * n13 b + n42 a * n23 b + n43 a * n33 b + n44 a * n43 b)%float;
     n44 := (n41 a * n14 b + n42 a * n24 b + n43 a * n34 b + n44 a * n44 b)%float |}.

(** [Matrix4.determinant()]. *)
Definition determinant (m : Matrix4) : float :=
  (n41 m * (n14 m * n23 m * n32 m
            - n13 m * n24 m * n32 m
            - n14 m * n22 m * n33 m
            + n12 m * n24 m * n33 m
            + n13 m * n22 m * n34 m
            - n12 m * n23 m * n34 m)
   + n42 m * (n11 m * n23 m * n34 m
              - n11 m * n24 m * n33 m
              + n14 m * n21 m * n33 m
              - n13 m * n21 m * n34 m
              + n13 m * n24 m * n31 m
              - n14 m * n23 m * n31 m)
   + n43 m * (n11 m * n24 m * n32 m
              - n11 m * n22 m * n34 m
              - n14 m * n21 m * n32 m
              + n12 m * n21 m * n34 m
              + n14 m * n22 m * n31 m
              - n12 m * n24 m * n31 m)
   + n44 m * (- (n13 m * n22 m * n31 m)
              - n11 m * n23 m * n32 m
              + n11 m * n22 m * n33 m
              + n12 m * n21 m * n33 m
              - n12 m * n23 m * n31 m
              + n13 m * n21 m * n32 m))%float.

(** [Vector3.length()] of a column. *)
Definition length3 (x y z : float) : float :=
  PrimFloat.sqrt (x * x + y * y + z * z)%float.

(** [Quaternion.setFromRotationMatrix(m)], on the upper 3 by 3 part. *)
Definition setFromRotationMatrix
  (m11 m12 m13 m21 m22 m23 m31 m32 m33 : float) : Quaternion :=
  let trace := (m11 + m22 + m33)%float in
  if PrimFloat.ltb 0 trace then
    let s := (0.5 / PrimFloat.sqrt (trace + 1))%float in
    mkQuaternion ((m32 - m23) * s) ((m13 - m31) * s) ((m21 - m12) * s) (0.25 / s)
  else if PrimFloat.ltb m22 m11 && PrimFloat.ltb m33 m11 then
    let s := (2 * PrimFloat.sqrt (1 + m11 - m22 - m33))%float in
    mkQuaternion (0.25 * s) ((m12 + m21) / s) ((m13 + m31) / s) ((m32 - m23) / s)
  else if PrimFloat.ltb m33 m22 then
    let s := (2 * PrimFloat.sqrt (1 + m22 - m11 - m33))%float in
    mkQuaternion ((m12 + m21) / s) (0.25 * s) ((m23 + m32) / s) ((m13 - m31) / s)
  else
    let s := (2 * PrimFloat.sqrt (1 + m33 - m11 - m22))%float in
    mkQuaternion ((m13 + m31) / s) ((m23 + m32) / s) (0.25 * s) ((m21 - m12) / s).

(** The quaternion [Matrix4.decompose(position, quaternion, scale)] writes:
    the columns are divided by their lengths (the first one negated when the
    determinant is negative) and the rotation is read from the result. *)
Definition decompose_quaternion (m : Matrix4) : Quaternion :=
  let sx := length3 (n11 m) (n21 m) (n31 m) in
  let sy := length3 (n12 m) (n22 m) (n32 m) in
  let sz := length3 (n13 m) (n23 m) (n33 m) in
  let det := determinant m in
  let sx := if PrimFloat.ltb det 0 then (- sx)%float else sx in
  let invSX := (1 / sx)%float in
  let invSY := (1 / sy)%float in
  let invSZ := (1 / sz)%float in
  setFromRotationMatrix
    (n11 m * invSX) (n12 m * invSY) (n13 m * invSZ)
    (n21 m * invSX) (n22 m * invSY) (n23 m * invSZ)
    (n31 m * invSX) (n32 m * invSY) (n33 m * invSZ).

(** [updateMatrix()]: the local matrix of a node. *)
Definition matrix (o : Object3D) : Matrix4 :=
  compose (position o) (quaternion o) (mkVector3 1 1 1).

(** [updateWorldMatrix(true, false)] on a node whose ancestors are listed
    from the root of the scene down to its parent: the root's world matrix is
    its local matrix, every other node's is its parent's times its own. *)
Definition matrixWorld (ancestors : list Object3D) (o : Object3D) : Matrix4 :=
  match ancestors with
  | [] => matrix o
  | root :: below =>
      fold_left (fun parentWorld child => multiplyMatrices parentWorld (matrix child))
        (below ++ [o]) (matrix root)
  end.

(** [getWorldQuaternion(target)] and [getWorldPosition(target)]. *)
Definition getWorldQuaternion (ancestors : list Object3D) (o : Object3D) : Quaternion :=
  decompose_quaternion (matrixWorld ancestors o).

Definition getWorldPosition (ancestors : list Object3D) (o : Object3D) : Vector3 :=
  let m := matrixWorld ancestors o in
  mkVector3 (n14 m) (n24 m) (n34 m).

(** The scene itself, and a group turned half a turn about the [y] axis. *)
Definition scene : Object3D := mkObject3D Vector3_new Quaternion_new.

Definition halfTurn : Object3D := mkObject3D Vector3_new (mkQuaternion 0 1 0 0).

End SceneGraph.

(* ================================================================== *)
(** ** The engine interface *)
(* ================================================================== *)

Module RAPIER.

(** Body and collider handles. *)
Abbreviation Handle := N.

(** [RAPIER.Vector] and [RAPIER.Rotation]: plain component records. *)
Record Vector := mkVector { x : float; y : float; z : float }.
Record Rotation := mkRotation { rx : float; ry : float; rz : float; rw : float }.

(** The shapes a descriptor can carry, with the parameter names of the
    engine's constructors. *)
Inductive Shape :=
| Cuboid (hx hy hz : float)
| Ball (radius : float)
| Cylinder (halfHeight radius : float)
| Capsule (halfHeight radius : float)
| Cone (halfHeight radius : float)
| ConvexMesh (vertices : list float) (indices : list Z)
| ConvexHull (points : list float)
| Trimesh (vertices : list float) (indices : list Z)
| Heightfield (nrows ncols : nat) (heights : list float) (scale : Vector).

(** [ActiveEvents]: a bit mask. *)
Definition ActiveEvents_NONE : Z := 0.
Definition ActiveEvents_INTERSECTION_EVENTS : Z := 1.
Definition ActiveEvents_CONTACT_EVENTS : Z := 2.

(** [ColliderDesc], reduced to the fields [useCollider] sets. *)
Record ColliderDesc := mkColliderDesc {
  shape : Shape;
  translation : Vector;
  rotation : Rotation;
  friction : float;
  restitution : float;
  density : float;
  activeEvents : Z
}.

(** [new ColliderDesc(shape)]: the engine's built-in defaults. *)
Definition ColliderDesc_new (s : Shape) : ColliderDesc :=
  {| shape := s;
     translation := mkVector 0 0 0;
     rotation := mkRotation 0 0 0 1;
     friction := 0.5;
     restitution := 0;
     density := 1;
     activeEvents := ActiveEvents_NONE |}.

(** The static constructors, with the engine's parameter order. *)
Definition ColliderDesc_cuboid (hx hy hz : float) := ColliderDesc_new (Cuboid hx hy hz).
Definition ColliderDesc_ball (radius : float) := ColliderDesc_new (Ball radius).
Definition ColliderDesc_cylinder (halfHeight radius : float) :=
  ColliderDesc_new (Cylinder halfHeight radius).
Definition ColliderDesc_capsule (halfHeight radius : float) :=
  ColliderDesc_new (Capsule halfHeight radius).
Definition ColliderDesc_cone (halfHeight radius : float) :=
  ColliderDesc_new (Cone halfHeight radius).

(** The setters: each replaces one field. *)
Definition setTranslation (x y z : float) (d : ColliderDesc) : ColliderDesc :=
  {| shape := shape d; translation := mkVector x y z; rotation := rotation d;
     friction := friction d; restitution := restitution d; density := density d;
     activeEvents := activeEvents d |}.

Definition setRotation (r : Rotation) (d : ColliderDesc) : ColliderDesc :=
  {| shape := shape d; translation := translation d; rotation := r;
     friction := friction d; restitution := restitution d; density := density d;
     activeEvents := activeEvents d |}.

Definition setFriction (f : float) (d : ColliderDesc) : ColliderDesc :=
  {| shape := shape d; translation := translation d; rotation := rotation d;
     friction := f; restitution := restitution d; density := density d;
     activeEvents := activeEvents d |}.

Definition setRestitution (r : float) (d : ColliderDesc) : ColliderDesc :=
  {| shape := shape d; translation := translation d; rotation := rotation d;
     friction := friction d; restitution := r; density := density d;
     activeEvents := activeEvents d |}.

Definition setDensity (v : float) (d : ColliderDesc) : ColliderDesc :=
  {| shape := shape d; translation := translation d; rotation := rotation d;
     friction := friction d; restitution := restitution d; density := v;
     activeEvents := activeEvents d |}.

Definition setActiveEvents (events : Z) (d : ColliderDesc) : ColliderDesc :=
  {| shape := shape d; translation := translation d; rotation := rotation d;
     friction := friction d; restitution := restitution d; density := density d;
     activeEvents := events |}.

(** Whether the engine emits contact events for the described collider. *)
Definition emitsContactEvents (d : ColliderDesc) : bool :=
  negb (Z.land (activeEvents d) ActiveEvents_CONTACT_EVENTS =? 0)%Z.

(** A rigid body as the frame loop reads it. *)
Record RigidBody := mkRigidBody {
  handle : Handle;
  isSleeping : bool;
  isStatic : bool;
  body_translation : Vector;
  body_rotation : Rotation
}.

End RAPIER.

(* ================================================================== *)
(** ** HeightfieldCollider: the debug mesh *)
(* ================================================================== *)

Module Heightfield.
Import JS.

Record Geometry := mkGeometry {
  vertices : list number;   (* Float32Array *)
  indices : list Z          (* Uint32Array *)
}.

(** The loop counters and the corner indices are integers below [2^53]
    wherever a [push] has not thrown yet, so their binary64 arithmetic is
    exact and is written on [nat] and [Z]. *)
Definition geometryFromHeightfield
  (nrows ncols : nat) (heights : list number) (scale : RAPIER.Vector)
  : outcome Geometry :=
  let eltWX := (1 / num nrows)%float in
  let eltWY := (1 / num ncols)%float in
  do vertices <-
    forM (seq 0 (S ncols)) (fun j =>
      forM (seq 0 (S nrows)) (fun i vertices =>
        let x := ((num j * eltWX - 0.5) * RAPIER.x scale)%float in
        let y := (index heights (j * (nrows + 1) + i) * RAPIER.y scale)%float in
        let z := ((num i * eltWY - 0.5) * RAPIER.z scale)%float in
        push vertices [x; y; z])) [];
  do indices <-
    forM (seq 0 ncols) (fun j =>
      forM (seq 0 nrows) (fun i indices =>
        let i1 := ((Z.of_nat i + 0) * (Z.of_nat ncols + 1) + (Z.of_nat j + 0))%Z in
        let i2 := ((Z.of_nat i + 0) * (Z.of_nat ncols + 1) + (Z.of_nat j + 1))%Z in
        let i3 := ((Z.of_nat i + 1) * (Z.of_nat ncols + 1) + (Z.of_nat j + 0))%Z in
        let i4 := ((Z.of_nat i + 1) * (Z.of_nat ncols + 1) + (Z.of_nat j + 1))%Z in
        do indices <- push indices [i1; i3; i2];
        push indices [i3; i4; i2])) [];
  Returned {| vertices := Float32Array vertices; indices := Uint32Array indices |}.

(** The three coordinates the first loop nest pushes for grid point [(i, j)],
    and the whole vertex sequence before its conversion to [Float32Array]. *)
Definition vertex (nrows ncols : nat) (heights : list number)
  (scale : RAPIER.Vector) (i j : nat) : list number :=
  [((num j * (1 / num nrows) - 0.5) * RAPIER.x scale)%float;
   (index heights (j * (nrows + 1) + i) * RAPIER.y scale)%float;
   ((num i * (1 / num ncols) - 0.5) * RAPIER.z scale)%float].

Definition grid_vertices (nrows ncols : nat) (heights : list number)
  (scale : RAPIER.Vector) : list number :=
  flat_map (fun j => flat_map (fun i => vertex nrows ncols heights scale i j)
                       (seq 0 (S nrows))) (seq 0 (S ncols)).

(** The index list as the specification words it: the two triangles of the
    cell in row [i] and column [j] of a grid with [C] columns. *)
Definition cell_triangles (C : nat) (i j : nat) : list Z :=
  let i1 := (Z.of_nat i * (Z.of_nat C + 1) + Z.of_nat j)%Z in
  let i2 := (Z.of_nat i * (Z.of_nat C + 1) + (Z.of_nat j + 1))%Z in
  let i3 := ((Z.of_nat i + 1) * (Z.of_nat C + 1) + Z.of_nat j)%Z in
  let i4 := ((Z.of_nat i + 1) * (Z.of_nat C + 1) + (Z.of_nat j + 1))%Z in
  [i1; i3; i2] ++ [i3; i4; i2].

(** All [R * C] cells, column by column. *)
Definition grid_triangles (R C : nat) : list Z :=
  flat_map (fun j => flat_map (fun i => cell_triangles C i j) (seq 0 R)) (seq 0 C).

End Heightfield.

(* ================================================================== *)
(** ** PhysicsContext *)
(* ================================================================== *)

Module Context.

(** An application callback: an opaque closure, known by its identity. *)
Inductive CollideEventCallback := Closure (id : nat).

(** A reference to a scene node ([Object3D] is a mutable object; the maps
    below hold references to it, the nodes themselves live in the scene). *)
Abbreviation Object3DRef := nat.

Record CollideEvent := mkCollideEvent { target : Object3DRef }.

Definition uuid (type : string) (id : RAPIER.Handle) : string :=
  type +:+ ":" +:+ pretty id.

(** The value type of the [events] map. *)
Record Listeners := mkListeners {
  onCollideBegin : option CollideEventCallback;
  onCollideEnd : option CollideEventCallback
}.

(** [PhysicsContextValue], without the world (see [Frame]) and [debug]. *)
Record PhysicsContextValue := mkPhysicsContextValue {
  bodies : gmap N nat;
  colliders : gmap N nat;
  events : gmap string Listeners
}.

(** [RigidBodyContextValue] and the default value of [RigidBodyContext]. *)
Record RigidBodyContextValue := mkRigidBodyContextValue {
  rigidBody : option RAPIER.RigidBody;
  shouldCollidersListenForContactEvents : bool
}.

Definition RigidBodyContext_default : RigidBodyContextValue :=
  {| rigidBody := None; shouldCollidersListenForContactEvents := false |}.

(** [!!v] on an optional callback or object. *)
Definition present {A} (v : option A) : bool :=
  match v with
  | Some _ => true
  | None => false
  end.

End Context.

(* ================================================================== *)
(** ** RigidBody *)
(* ================================================================== *)

Module Body.
Import JS THREE Context.

Inductive RigidBodyType :=
| dynamic
| static
| kinematic_velocity_based
| kinematic_position_based.

Record RigidBodyProps := mkRigidBodyProps {
  position : option Vector3Like;
  quaternion : option QuaternionLike;
  rotation : option EulerLike;
  type : RigidBodyType;
  onCollide : option CollideEventCallback
}.

Section WithScene.
(** [Quaternion.setFromEuler], and the world transform of a node given its
    local one: both belong to the scene-graph library. *)
Variable setFromEuler : Euler -> Quaternion.
Variable getWorldPosition : Object3D -> Vector3.
Variable getWorldQuaternion : Object3D -> Quaternion.

(** [rotationQuat]: the orientation resolved from the props. *)
Definition rotationQuat (props : RigidBodyProps) : Quaternion :=
  let quat := Quaternion_new in
  match quaternion props with
  | Some (Quaternion_arr x y z w) => mkQuaternion x y z w
  | Some (Quaternion_obj q) => q
  | None =>
      match rotation props with
      | Some r =>
          let euler :=
            match r with
            | Euler_arr x y z o => Euler_fromArray x y z o
            | Euler_obj e => e
            end in
          setFromEuler euler
      | None => quat
      end
  end.

(** [positionVec]. *)
Definition positionVec (props : RigidBodyProps) : Vector3 :=
  let vec := Vector3_new in
  match position props with
  | None => vec
  | Some (Vector3_arr x y z) => mkVector3 x y z
  | Some (Vector3_obj v) => v
  end.

(** The node rendered for the body:
    [<object3D position={position} quaternion={rotationQuat}>]. *)
Definition object3D (props : RigidBodyProps) : Object3D :=
  {| THREE.position := positionVec props; THREE.quaternion := rotationQuat props |}.

(** The first layout effect: the pose handed to [rigidBody.setTranslation]
    and [rigidBody.setRotation] is the node's world pose. *)
Definition initialPose (props : RigidBodyProps) : Vector3 * Quaternion :=
  let object3d := object3D props in
  (getWorldPosition object3d, getWorldQuaternion object3d).

End WithScene.

(** The context a body provides to the colliders below it. *)
Definition context (rigidBody : option RAPIER.RigidBody) (props : RigidBodyProps)
  : RigidBodyContextValue :=
  let hasEventListeners := present (onCollide props) in
  {| rigidBody := rigidBody;
     shouldCollidersListenForContactEvents := hasEventListeners |}.

(** The third layout effect and its cleanup:
    [bodies.set(rigidBody.handle, object3d)] / [bodies.delete(...)]. *)
Definition registerEffect
  (object3d : option Object3DRef) (rigidBody : option RAPIER.RigidBody)
  (bodies : gmap N nat) : outcome (gmap N nat) :=
  match object3d, rigidBody with
  | Some o, Some rb => Returned (<[RAPIER.handle rb := o]> bodies)
  | _, _ => Returned bodies
  end.

Definition registerCleanup (rigidBody : RAPIER.RigidBody) (bodies : gmap N nat)
  : gmap N nat :=
  delete (RAPIER.handle rigidBody) bodies.

(** The event effect and its cleanup:
    [events.set(id, { onCollideBegin: onCollide })] / [events.delete(id)]. *)
Definition subscribeEffect
  (rigidBody : option RAPIER.RigidBody) (onCollide : option CollideEventCallback)
  (events : gmap string Listeners) : outcome (gmap string Listeners) :=
  match rigidBody, onCollide with
  | Some rb, Some cb =>
      let id := uuid "rigidBody" (RAPIER.handle rb) in
      Returned (<[id := {| onCollideBegin := Some cb; onCollideEnd := None |}]> events)
  | _, _ => Returned events
  end.

Definition subscribeCleanup (rigidBody : RAPIER.RigidBody)
  (events : gmap string Listeners) : gmap string Listeners :=
  delete (uuid "rigidBody" (RAPIER.handle rigidBody)) events.

End Body.

(* ================================================================== *)
(** ** Colliders *)
(* ================================================================== *)

Module Collider.
Import JS THREE Context.

Record ColliderProps := mkColliderProps {
  position : option Vector3Like;
  quaternion : option QuaternionLike;
  rotation : option EulerLike;
  friction : option number;
  restitution : option number;
  density : option number;
  onCollide : option CollideEventCallback
}.

(** A created collider, as far as the hook reads it. *)
Record Collider := mkCollider { handle : RAPIER.Handle }.

(** [desc.setRotation(quat)] receives the quaternion object; the engine reads
    its four components. *)
Definition toRotation (q : Quaternion) : RAPIER.Rotation :=
  RAPIER.mkRotation (qx q) (qy q) (qz q) (qw q).

Section WithScene.
Variable setFromEuler : Euler -> Quaternion.

(** The orientation [useCollider] resolves before [desc.setRotation]. *)
Definition resolveQuat (props : ColliderProps) : Quaternion :=
  let quat := Quaternion_new in
  let quat :=
    match rotation props with
    | Some r =>
        let euler :=
          match r with
          | Euler_arr x y z o => Euler_fromArray x y z o
          | Euler_obj e => e
          end in
        setFromEuler euler
    | None => quat
    end in
  match quaternion props with
  | Some (Quaternion_arr x y z w) => mkQuaternion x y z w
  | Some (Quaternion_obj q) => q
  | None => quat
  end.

(** [colliderDesc]: the descriptor [useCollider] builds once from the shape
    callback, the props and the enclosing body's context. *)
Definition colliderDesc
  (cb : unit -> option RAPIER.ColliderDesc) (props : ColliderProps)
  (ctx : RigidBodyContextValue) : option RAPIER.ColliderDesc :=
  let shouldListenForContactEvents := present (onCollide props) in
  match cb tt with
  | None => None
  | Some desc =>
      let desc :=
        match position props with
        | Some (Vector3_arr x y z) => RAPIER.setTranslation x y z desc
        | Some (Vector3_obj v) => RAPIER.setTranslation (x v) (y v) (z v) desc
        | None => desc
        end in
      let quat := resolveQuat props in
      let desc := RAPIER.setRotation (toRotation quat) desc in
      let desc :=
        match friction props with
        | Some f => if truthy f then RAPIER.setFriction f desc else desc
        | None => desc
        end in
      let desc :=
        match restitution props with
        | Some r => if truthy r then RAPIER.setRestitution r desc else desc
        | None => desc
        end in
      let desc :=
        match density props with
        | Some v => if truthy v then RAPIER.setDensity v desc else desc
        | None => desc
        end in
      let desc :=
        if shouldListenForContactEvents
           || shouldCollidersListenForContactEvents ctx
        then RAPIER.setActiveEvents RAPIER.ActiveEvents_CONTACT_EVENTS desc
        else desc in
      Some desc
  end.

(** The shape components: each passes its constructor call to the hook. *)
Definition CuboidCollider (args : number * number * number) :=
  let '(width, height, depth) := args in
  colliderDesc
    (fun _ => Some (RAPIER.ColliderDesc_cuboid (width / 2) (height / 2) (depth / 2))).

Definition BallCollider (args : number) :=
  let radius := args in
  colliderDesc (fun _ => Some (RAPIER.ColliderDesc_ball radius)).

Definition CylinderCollider (args : number * number) :=
  let '(radius, height) := args in
  colliderDesc (fun _ => Some (RAPIER.ColliderDesc_cylinder (height / 2) radius)).

Definition CapsuleCollider (args : number * number) :=
  let '(radius, height) := args in
  colliderDesc (fun _ => Some (RAPIER.ColliderDesc_capsule radius (height / 2))).

Definition ConeCollider (args : number * number) :=
  let '(radius, height) := args in
  colliderDesc (fun _ => Some (RAPIER.ColliderDesc_cone (height / 2) radius)).

End WithScene.

(** The value a guarded setter leaves in a field: the option's value when it
    is truthy, the constructor's value otherwise. *)
Definition guarded (option : option number) (built_in : number) : number :=
  match option with
  | Some v => if truthy v then v else built_in
  | None => built_in
  end.

(** [useContext(RigidBodyContext)]: the context of the enclosing [RigidBody]
    (its body, possibly not created yet, and its props), or the default. *)
Definition useContext
  (parent : option (option RAPIER.RigidBody * Body.RigidBodyProps))
  : RigidBodyContextValue :=
  match parent with
  | Some (rigidBody, props) => Body.context rigidBody props
  | None => RigidBodyContext_default
  end.

(** The second layout effect and its cleanup:
    [colliders.set(collider.handle, object3d)] / [colliders.delete(...)]. *)
Definition registerEffect
  (object3d : option Object3DRef) (collider : option Collider)
  (colliders : gmap N nat) : outcome (gmap N nat) :=
  match object3d, collider with
  | Some o, Some c => Returned (<[handle c := o]> colliders)
  | _, _ => Returned colliders
  end.

Definition registerCleanup (collider : Collider) (colliders : gmap N nat)
  : gmap N nat :=
  delete (handle collider) colliders.

(** The event effect and its cleanup. *)
Definition subscribeEffect
  (collider : option Collider) (onCollide : option CollideEventCallback)
  (events : gmap string Listeners) : outcome (gmap string Listeners) :=
  match collider, onCollide with
  | Some c, Some cb =>
      let id := uuid "collider" (handle c) in
      Returned (<[id := {| onCollideBegin := Some cb; onCollideEnd := None |}]> events)
  | _, _ => Returned events
  end.

Definition subscribeCleanup (collider : Collider)
  (events : gmap string Listeners) : gmap string Listeners :=
  delete (uuid "collider" (handle collider)) events.

End Collider.

(* ================================================================== *)
(** ** The event registry over the components' lifetime *)
(* ================================================================== *)

Module Lifecycle.
Import JS Context.

(** The contents the [events] map can have: it starts as [new Map()] and is
    changed only by the event effects of [RigidBody] and [useCollider] and by
    their cleanups. *)
Inductive reachable : gmap string Listeners -> Prop :=
| reachable_new :
    reachable ∅
| reachable_body_subscribe rigidBody onCollide events events' :
    reachable events ->
    Body.subscribeEffect rigidBody onCollide events = Returned events' ->
    reachable events'
| reachable_body_cleanup rigidBody events :
    reachable events ->
    reachable (Body.subscribeCleanup rigidBody events)
| reachable_collider_subscribe collider onCollide events events' :
    reachable events ->
    Collider.subscribeEffect collider onCollide events = Returned events' ->
    reachable events'
| reachable_collider_cleanup collider events :
    reachable events ->
    reachable (Collider.subscribeCleanup collider events).

End Lifecycle.

(* ================================================================== *)
(** ** Physics: the frame loop *)
(* ================================================================== *)

Module Frame.
Import JS THREE Context.

(** A record of the contact-event queue, as [drainContactEvents] hands it
    to its callback: [(handle1, handle2, started)]. *)
Record ContactEvent := mkContactEvent {
  handle1 : RAPIER.Handle;
  handle2 : RAPIER.Handle;
  started : bool
}.

(** The engine, as far as the frame loop consumes it. *)
Class Engine := {
  World : Type;
  (** [world.step(eventQueue)]: the world after the step and the records the
      queue then holds. *)
  step : World -> list ContactEvent -> World * list ContactEvent;
  (** The bodies [world.forEachActiveRigidBody] visits, in order. *)
  activeRigidBodies : World -> list RAPIER.RigidBody;
  (** [world.getCollider(handle).parent()]. *)
  colliderParent : World -> RAPIER.Handle -> RAPIER.Handle
}.

(** The application: how a callback invoked on an event ends ([None] when it
    returns, [Some e] when it throws [e]). *)
Class Application := {
  callbackEnd : CollideEventCallback -> CollideEvent -> option exn
}.

(** What the loop does to the outside, in order. *)
Inductive Action :=
| AStep
| ASetPosition (node : Object3DRef) (v : Vector3)
| ASetQuaternion (node : Object3DRef) (q : Quaternion)
| ADrain
| AInvoke (cb : CollideEventCallback) (ev : CollideEvent).

Section WithEngine.
Context `{Engine} `{Application}.

Record State := mkState {
  world : World;
  eventQueue : list ContactEvent;
  scene : gmap nat Object3D;
  trace : list Action
}.

(** Computations of the frame loop: they read and write the state and
    return or throw. *)
Definition M (A : Type) : Type := State -> outcome A * State.

Definition ret {A} (a : A) : M A := fun s => (Returned a, s).

Definition seq_bind {A B} (m : M A) (k : A -> M B) : M B :=
  fun s =>
    match m s with
    | (Returned a, s') => k a s'
    | (Raised e, s') => (Raised e, s')
    end.

Definition gets {A} (f : State -> A) : M A := fun s => (Returned (f s), s).

Definition log (a : Action) : M unit :=
  fun s =>
    (Returned tt,
     {| world := world s; eventQueue := eventQueue s; scene := scene s;
        trace := trace s ++ [a] |}).

Fixpoint forEach {A} (l : list A) (f : A -> M unit) : M unit :=
  match l with
  | [] => ret tt
  | a :: rest => seq_bind (f a) (fun _ => forEach rest f)
  end.

(** [object3d.position.set(x, y, z)] and [object3d.quaternion.set(x, y, z, w)]. *)
Definition position_set (node : Object3DRef) (x y z : number) : M unit :=
  fun s =>
    let v := mkVector3 x y z in
    (Returned tt,
     {| world := world s; eventQueue := eventQueue s;
        scene := alter (fun o => mkObject3D v (quaternion o)) node (scene s);
        trace := trace s ++ [ASetPosition node v] |}).

Definition quaternion_set (node : Object3DRef) (x y z w : number) : M unit :=
  fun s =>
    let q := mkQuaternion x y z w in
    (Returned tt,
     {| world := world s; eventQueue := eventQueue s;
        scene := alter (fun o => mkObject3D (position o) q) node (scene s);
        trace := trace s ++ [ASetQuaternion node q] |}).

(** Calling an application callback. *)
Definition invoke (cb : CollideEventCallback) (ev : CollideEvent) : M unit :=
  fun s =>
    (match callbackEnd cb ev with
     | None => Returned tt
     | Some e => Raised e
     end,
     {| world := world s; eventQueue := eventQueue s; scene := scene s;
        trace := trace s ++ [AInvoke cb ev] |}).

(** [a && k(a)]: the right operand is evaluated only when [a] is an object. *)
Definition and_then {A} (a : option A) (k : A -> M unit) : M unit :=
  match a with
  | Some v => k v
  | None => ret tt
  end.

(** [f?.(ev)]: a call that is skipped when [f] is [undefined]. *)
Definition call_opt (f : option CollideEventCallback) (ev : CollideEvent) : M unit :=
  match f with
  | Some cb => invoke cb ev
  | None => ret tt
  end.

(** [world.step(eventQueue)]. *)
Definition world_step : M unit :=
  fun s =>
    let '(w, q) := step (world s) (eventQueue s) in
    (Returned tt,
     {| world := w; eventQueue := q; scene := scene s; trace := trace s ++ [AStep] |}).

(** [world.forEachActiveRigidBody(f)]. *)
Definition forEachActiveRigidBody (f : RAPIER.RigidBody -> M unit) : M unit :=
  seq_bind (gets (fun s => activeRigidBodies (world s))) (fun l => forEach l f).

(** The engine's loop over the queued records: it calls [f] on each of them
    across its foreign-function boundary and drops whatever [f] throws, so
    the loop goes on to the next record. *)
Fixpoint drainEach (q : list ContactEvent) (f : ContactEvent -> M unit) : M unit :=
  match q with
  | [] => ret tt
  | ev :: rest => fun s => drainEach rest f (snd (f ev s))
  end.

(** [eventQueue.drainContactEvents(f)]: [f] is called once per record, then
    the queue is empty. *)
Definition drainContactEvents (f : ContactEvent -> M unit) : M unit :=
  seq_bind (log ADrain) (fun _ =>
  seq_bind (gets eventQueue) (fun q =>
  seq_bind (drainEach q f) (fun _ =>
  fun s =>
    (Returned tt,
     {| world := world s; eventQueue := []; scene := scene s; trace := trace s |})))).

(** The callback given to [forEachActiveRigidBody]. *)
Definition syncPose (ctx : PhysicsContextValue) (rigidBody : RAPIER.RigidBody) : M unit :=
  let object3d := bodies ctx !! RAPIER.handle rigidBody in
  match object3d with
  | Some o =>
      if negb (RAPIER.isSleeping rigidBody) && negb (RAPIER.isStatic rigidBody)
      then
        let vec := RAPIER.body_translation rigidBody in
        let quat := RAPIER.body_rotation rigidBody in
        seq_bind (position_set o (RAPIER.x vec) (RAPIER.y vec) (RAPIER.z vec)) (fun _ =>
        quaternion_set o (RAPIER.rx quat) (RAPIER.ry quat) (RAPIER.rz quat) (RAPIER.rw quat))
      else ret tt
  | None => ret tt
  end.

(** The callback given to [drainContactEvents]. *)
Definition onContact (ctx : PhysicsContextValue) (ev : ContactEvent) : M unit :=
  seq_bind (gets (fun s => colliderParent (world s) (handle1 ev))) (fun body1Handle =>
  seq_bind (gets (fun s => colliderParent (world s) (handle2 ev))) (fun body2Handle =>
  let event1 := events ctx !! uuid "collider" (handle1 ev) in
  let event2 := events ctx !! uuid "collider" (handle2 ev) in
  let bodyEvent1 := events ctx !! uuid "rigidBody" body1Handle in
  let bodyEvent2 := events ctx !! uuid "rigidBody" body2Handle in
  let collider1 := colliders ctx !! handle1 ev in
  let collider2 := colliders ctx !! handle2 ev in
  let body1 := bodies ctx !! body1Handle in
  let body2 := bodies ctx !! body2Handle in
  if started ev then
    seq_bind (and_then collider1 (fun c =>
      call_opt (event1 ≫= onCollideBegin) {| target := c |})) (fun _ =>
    seq_bind (and_then collider2 (fun c =>
      call_opt (event2 ≫= onCollideBegin) {| target := c |})) (fun _ =>
    seq_bind (and_then body1 (fun b =>
      call_opt (bodyEvent1 ≫= onCollideBegin) {| target := b |})) (fun _ =>
    and_then body2 (fun b =>
      call_opt (bodyEvent2 ≫= onCollideBegin) {| target := b |}))))
  else
    seq_bind (and_then collider1 (fun c =>
      call_opt (event1 ≫= onCollideEnd) {| target := c |})) (fun _ =>
    seq_bind (and_then collider2 (fun c =>
      call_opt (event2 ≫= onCollideEnd) {| target := c |})) (fun _ =>
    seq_bind (and_then body1 (fun b =>
      call_opt (bodyEvent1 ≫= onCollideEnd) {| target := b |})) (fun _ =>
    and_then body2 (fun b =>
      call_opt (bodyEvent2 ≫= onCollideEnd) {| target := b |})))))).

(** The callback given to [useFrame]: one tick. *)
Definition tick (ctx : PhysicsContextValue) : M unit :=
  seq_bind world_step (fun _ =>
  seq_bind (forEachActiveRigidBody (syncPose ctx)) (fun _ =>
  drainContactEvents (onContact ctx))).

(** The node an action writes, if it is a pose write. *)
Definition written_node (a : Action) : option Object3DRef :=
  match a with
  | ASetPosition n _ | ASetQuaternion n _ => Some n
  | _ => None
  end.

Definition is_write (a : Action) : Prop := is_Some (written_node a).

Definition is_invoke (a : Action) : Prop :=
  match a with
  | AInvoke _ _ => True
  | _ => False
  end.

(** One delivery as the specification words it: the listener subscribed
    under [(kind, handle)] is called on the node registered for the handle;
    without a node, a listener entry, or a callback for the phase, there is
    nothing to deliver. *)
Definition delivery (ctx : PhysicsContextValue) (begin : bool) (kind : string)
  (registry : gmap N nat) (h : RAPIER.Handle)
  : option (CollideEventCallback * CollideEvent) :=
  match registry !! h, events ctx !! uuid kind h with
  | Some node, Some l =>
      match (if begin then onCollideBegin l else onCollideEnd l) with
      | Some cb => Some (cb, {| target := node |})
      | None => None
      end
  | _, _ => None
  end.

(** The deliveries of one contact event, in order: first collider, second
    collider, first collider's body, second collider's body. *)
Definition deliveries (ctx : PhysicsContextValue) (w : World) (ev : ContactEvent)
  : list (CollideEventCallback * CollideEvent) :=
  omap id
    [delivery ctx (started ev) "collider" (colliders ctx) (handle1 ev);
     delivery ctx (started ev) "collider" (colliders ctx) (handle2 ev);
     delivery ctx (started ev) "rigidBody" (bodies ctx) (colliderParent w (handle1 ev));
     delivery ctx (started ev) "rigidBody" (bodies ctx) (colliderParent w (handle2 ev))].

(** The node a visited body's pose is copied to: the node registered for its
    handle, provided the body is neither asleep nor static. *)
Definition pose_target (ctx : PhysicsContextValue) (rb : RAPIER.RigidBody)
  : option Object3DRef :=
  match bodies ctx !! RAPIER.handle rb with
  | Some o =>
      if negb (RAPIER.isSleeping rb) && negb (RAPIER.isStatic rb) then Some o else None
  | None => None
  end.

(** The pose of a body, as a scene node holds it. *)
Definition body_pose (rb : RAPIER.RigidBody) : Vector3 * Quaternion :=
  let vec := RAPIER.body_translation rb in
  let quat := RAPIER.body_rotation rb in
  (mkVector3 (RAPIER.x vec) (RAPIER.y vec) (RAPIER.z vec),
   mkQuaternion (RAPIER.rx quat) (RAPIER.ry quat) (RAPIER.rz quat) (RAPIER.rw quat)).

(** Two states agree on everything but the trace. *)
Definition same_world (s s' : State) : Prop :=
  world s' = world s /\ eventQueue s' = eventQueue s /\ scene s' = scene s.

(** The state after one more action was logged. *)
Definition logged (a : Action) (s : State) : State :=
  {| world := world s; eventQueue := eventQueue s; scene := scene s;
     trace := trace s ++ [a] |}.

Definition deliver (d : CollideEventCallback * CollideEvent) : M unit :=
  invoke (fst d) (snd d).

Definition invocation (d : CollideEventCallback * CollideEvent) : Action :=
  AInvoke (fst d) (snd d).

End WithEngine.

End Frame.

(* ================================================================== *)
(** ** A small scene used to run the definitions *)
(* ================================================================== *)

Module Scenario.
Import JS THREE Context.

(** An engine whose step reports one started and one stopped contact between
    colliders 1 and 2, which belong to bodies 11 and 12; body 11 is moving,
    body 12 is static. *)
Definition falling : RAPIER.RigidBody :=
  RAPIER.mkRigidBody 11 false false (RAPIER.mkVector 0 (-1) 0) (RAPIER.mkRotation 0 0 0 1).

Definition ground : RAPIER.RigidBody :=
  RAPIER.mkRigidBody 12 false true (RAPIER.mkVector 0 0 0) (RAPIER.mkRotation 0 0 0 1).

#[global] Instance engine : Frame.Engine := {|
  Frame.World := unit;
  Frame.step := fun w _ => (w, [Frame.mkContactEvent 1 2 true; Frame.mkContactEvent 1 2 false]);
  Frame.activeRigidBodies := fun _ => [falling; ground];
  Frame.colliderParent := fun _ h => (h + 10)%N
|}.

(** An application whose callbacks all return. *)
#[global] Instance application : Frame.Application := {|
  Frame.callbackEnd := fun _ _ => None
|}.

(** A stand-in for [Quaternion.setFromEuler], enough to tell a quaternion
    derived from a rotation from an explicit one. *)
Definition fromEuler (e : Euler) : Quaternion := mkQuaternion (ex e) (ey e) (ez e) 0.

(** Collider props with both an explicit quaternion and a rotation. *)
Definition turned : Collider.ColliderProps :=
  Collider.mkColliderProps None
    (Some (Quaternion_arr 0 1 0 0)) (Some (Euler_arr 1 2 3 None))
    None None None None.

(** Nodes 101 and 102 are the bodies' nodes, 201 and 202 the colliders'. *)
Definition origin : Object3D := mkObject3D Vector3_new Quaternion_new.

Definition nodes : gmap nat Object3D :=
  <[101%nat := origin]> (<[102%nat := origin]>
    (<[201%nat := origin]> (<[202%nat := origin]> ∅))).

(** The event map after the body 11 and the collider 2 subscribed. *)
Definition subscribed : gmap string Listeners :=
  <[uuid "collider" 2 := mkListeners (Some (Closure 2)) None]>
    (<[uuid "rigidBody" 11 := mkListeners (Some (Closure 11)) None]> ∅).

Definition context : PhysicsContextValue :=
  {| bodies := <[11%N := 101%nat]> (<[12%N := 102%nat]> ∅);
     colliders := <[1%N := 201%nat]> (<[2%N := 202%nat]> ∅);
     events := subscribed |}.

Definition initial : Frame.State :=
  Frame.mkState tt [] nodes [].

End Scenario.

(* ================================================================== *)
(** ** RigidBody: the body descriptor and the body's lifetime *)
(* ================================================================== *)

Module BodyDesc.
Import JS.

(** The four static constructors of [RAPIER.RigidBodyDesc]. *)
Inductive RigidBodyDesc :=
| newDynamic
| newStatic
| newKinematicVelocityBased
| newKinematicPositionBased.

(** The double quote character of the error message. *)
Definition quote : string :=
  String (Ascii.Ascii false true false false false true false false) EmptyString.

(** [rigidBodyDesc]: the [switch] on the [type] prop, on the string the
    component receives at run time. *)
Definition rigidBodyDesc (type : string) : outcome RigidBodyDesc :=
  if bool_decide (type = "dynamic") then Returned newDynamic
  else if bool_decide (type = "static") then Returned newStatic
  else if bool_decide (type = "kinematic-velocity-based")
  then Returned newKinematicVelocityBased
  else if bool_decide (type = "kinematic-position-based")
  then Returned newKinematicPositionBased
  else Raised (Error ("Unsupported RigidBody.type: " +:+ quote +:+ type +:+ quote)).

End BodyDesc.

Module Registry.
Import JS Context.

(** A body component mounting (its registering layout effect runs with the
    node and the created body) or unmounting (the effect's cleanup runs). *)
Inductive Op :=
| Mount (rigidBody : RAPIER.RigidBody) (object3d : Object3DRef)
| Unmount (rigidBody : RAPIER.RigidBody).

Definition op_handle (op : Op) : RAPIER.Handle :=
  match op with
  | Mount rb _ | Unmount rb => RAPIER.handle rb
  end.

Definition apply (op : Op) (bodies : gmap N nat) : outcome (gmap N nat) :=
  match op with
  | Mount rb o => Body.registerEffect (Some o) (Some rb) bodies
  | Unmount rb => Returned (Body.registerCleanup rb bodies)
  end.

Fixpoint run (ops : list Op) (bodies : gmap N nat) : outcome (gmap N nat) :=
  match ops with
  | [] => Returned bodies
  | op :: rest => do bodies' <- apply op bodies; run rest bodies'
  end.

(** What the latest operation on handle [h] left for it, if there is one:
    the mounted node, or nothing after an unmount. *)
Fixpoint latest (h : RAPIER.Handle) (ops : list Op) : option (option Object3DRef) :=
  match ops with
  | [] => None
  | op :: rest =>
      match latest h rest with
      | Some r => Some r
      | None =>
          if bool_decide (op_handle op = h)
          then Some match op with Mount _ o => Some o | Unmount _ => None end
          else None
      end
  end.

End Registry.

(* ================================================================== *)
(** ** Several frames *)
(* ================================================================== *)

Module Frames.
Import JS Context Frame.

Section WithEngine.
Context `{Engine} `{Application}.

(** [n] successive calls of the frame callback; a call that throws ends the
    run. *)
Fixpoint ticks (n : nat) (ctx : PhysicsContextValue) : M unit :=
  match n with
  | O => ret tt
  | S n' => seq_bind (tick ctx) (fun _ => ticks n' ctx)
  end.

End WithEngine.

(** How many times an action occurs in a trace. *)
Definition is_step (a : Action) : bool :=
  match a with AStep => true | _ => false end.

Definition is_drain (a : Action) : bool :=
  match a with ADrain => true | _ => false end.

Definition count (p : Action -> bool) (t : list Action) : nat :=
  length (List.filter p t).

End Frames.

(* ================================================================== *)
(** ** The character's state machine ([models/ybot.tsx]) *)
(* ================================================================== *)

Module Character.
Import JS.

(** The configuration given to [createMachine]: for each state, the target
    of each event it handles. *)
Definition states : list (string * list (string * string)) :=
  [("idle", [("WALK", "walk")]);
   ("walk", [("RUN", "run")]);
   ("run", [("WALK", "walk")])].

Definition initial : string := "idle".

(** Property lookup in an object literal. *)
Fixpoint get {A} (key : string) (obj : list (string * A)) : option A :=
  match obj with
  | [] => None
  | (k, v) :: rest => if bool_decide (k = key) then Some v else get key rest
  end.

(** A machine state, reduced to its value and its [changed] flag. *)
Record State := mkState { value : string; changed : bool }.

Definition initialState : State := {| value := initial; changed := false |}.

(** [machine.transition(state, event)] of the state-machine library, for a
    configuration without actions, guards and context: the state's target
    for the event, or the state unchanged when it handles no such event; a
    state value the configuration lacks is an error. *)
Definition transition (state : State) (event : string) : outcome State :=
  match get (value state) states with
  | None =>
      Raised (Error ("State '" +:+ value state +:+ "' not found on machine character"))
  | Some on =>
      match get event on with
      | Some target =>
          Returned
            {| value := target; changed := negb (bool_decide (target = value state)) |}
      | None => Returned {| value := value state; changed := false |}
      end
  end.

(** A state whose value is one of the configured states. *)
Definition known (st : State) : Prop := value st ∈ ["idle"; "walk"; "run"].

(** Feeding a sequence of events, one transition each. *)
Fixpoint transitions (state : State) (events : list string) : outcome State :=
  match events with
  | [] => Returned state
  | e :: rest => do state' <- transition state e; transitions state' rest
  end.

End Character.

(* ================================================================== *)
(** ** An application with a failing callback *)
(* ================================================================== *)

Module Faulty.
Import JS Context.

(** The callback of collider 2 throws; every other callback returns. *)
Definition application : Frame.Application := {|
  Frame.callbackEnd := fun cb _ =>
    match cb with
    | Closure 2 => Some (Error "listener failed")
    | Closure _ => None
    end
|}.

End Faulty.

(* ================================================================== *)
(** ** An engine at rest *)
(* ================================================================== *)

Module Quiet.

(** Every body is asleep and nothing touches: the engine visits no body and
    reports no contact. *)
Definition engine : Frame.Engine := {|
  Frame.World := unit;
  Frame.step := fun w _ => (w, []);
  Frame.activeRigidBodies := fun _ => [];
  Frame.colliderParent := fun _ h => h
|}.

Definition initial : @Frame.State engine :=
  @Frame.mkState engine tt [] Scenario.nodes [].

End Quiet.

(* ================================================================== *)
(** * Properties *)
(* ================================================================== *)

(** ** Arrays filled by loops of [push] *)

Section PushLoops.
Import JS.
Context {A : Type}.
Implicit Types (arr items : list A).

Lemma push_fits arr items :
  fits (arr ++ items) -> push arr items = Returned (arr ++ items).
Proof.
  unfold fits, push. rewrite length_app, Nat2Z.inj_add. intros Hle.
  destruct (Z.leb_spec (Z.of_nat (length arr) + Z.of_nat (length items))
              MAX_ARRAY_LENGTH); [reflexivity | lia].
Qed.

Lemma push_Returned arr items l :
  push arr items = Returned l -> l = arr ++ items /\ fits l.
Proof.
  unfold fits, push.
  destruct (Z.leb_spec (Z.of_nat (length arr) + Z.of_nat (length items))
              MAX_ARRAY_LENGTH) as [Hle|Hgt]; [|discriminate].
  intros [= <-]. split; [reflexivity|]. rewrite length_app, Nat2Z.inj_add. exact Hle.
Qed.

Lemma push_overflow arr items :
  ~ fits (arr ++ items) -> push arr items = Raised (RangeError "Invalid array length").
Proof.
  unfold fits, push. rewrite length_app, Nat2Z.inj_add. intros Hgt.
  destruct (Z.leb_spec (Z.of_nat (length arr) + Z.of_nat (length items))
              MAX_ARRAY_LENGTH); [lia | reflexivity].
Qed.

Lemma fits_dec arr : {fits arr} + {~ fits arr}.
Proof. unfold fits. destruct (Z_le_dec (Z.of_nat (length arr)) MAX_ARRAY_LENGTH); auto. Qed.

Lemma fits_app_l arr items : fits (arr ++ items) -> fits arr.
Proof. unfold fits. rewrite length_app. lia. Qed.

(** Two pushes in a row are one push of the concatenation. *)
Lemma push_push arr xs ys :
  (do a <- push arr xs; push a ys) = push arr (xs ++ ys).
Proof.
  destruct (fits_dec (arr ++ xs ++ ys)) as [Hf|Hf].
  - rewrite (push_fits arr (xs ++ ys)) by exact Hf.
    rewrite push_fits by (apply fits_app_l with ys; rewrite <- app_assoc; exact Hf).
    simpl. rewrite push_fits by (rewrite <- app_assoc; exact Hf).
    rewrite <- app_assoc. reflexivity.
  - rewrite (push_overflow arr (xs ++ ys)) by exact Hf.
    destruct (fits_dec (arr ++ xs)) as [Hx|Hx].
    + rewrite push_fits by exact Hx. simpl.
      apply push_overflow. rewrite <- app_assoc. exact Hf.
    + rewrite push_overflow by exact Hx. reflexivity.
Qed.

(** A loop whose body pushes [f i] onto the array is one push of all the
    [f i], as long as the array it starts from exists. *)
Lemma forM_push (f : nat -> list A) body range :
  (forall i arr, fits arr -> body i arr = push arr (f i)) ->
  forall arr, fits arr -> forM range body arr = push arr (flat_map f range).
Proof.
  intros Hbody. induction range as [|i range IH]; intros arr Hfit; simpl.
  - rewrite push_fits by (rewrite app_nil_r; exact Hfit).
    rewrite app_nil_r. reflexivity.
  - rewrite Hbody by exact Hfit. rewrite <- push_push.
    destruct (push arr (f i)) as [a|e] eqn:Hp; simpl; [|reflexivity].
    apply IH. apply push_Returned in Hp. tauto.
Qed.

End PushLoops.

Lemma fits_nil {A} : JS.fits (@nil A).
Proof. unfold JS.fits, JS.MAX_ARRAY_LENGTH. simpl. lia. Qed.

(** ** The heightfield mesh (C1) *)

Section HeightfieldFacts.
Import JS Heightfield.

Lemma length_flat_map_const {A B} (f : A -> list B) (l : list A) (c : nat) :
  (forall a, length (f a) = c) -> length (flat_map f l) = (length l * c)%nat.
Proof.
  intros Hc. induction l as [|a l IH]; simpl; [reflexivity|].
  rewrite length_app, Hc, IH. reflexivity.
Qed.

Lemma length_grid_vertices nrows ncols heights scale :
  length (grid_vertices nrows ncols heights scale) = (3 * ((nrows + 1) * (ncols + 1)))%nat.
Proof.
  unfold grid_vertices.
  rewrite (length_flat_map_const _ _ (S nrows * 3)).
  - rewrite length_seq. lia.
  - intros j. rewrite (length_flat_map_const _ _ 3) by reflexivity.
    rewrite length_seq. reflexivity.
Qed.

Lemma length_grid_triangles R C : length (grid_triangles R C) = (6 * (R * C))%nat.
Proof.
  unfold grid_triangles.
  rewrite (length_flat_map_const _ _ (R * 6)).
  - rewrite length_seq. lia.
  - intros j. rewrite (length_flat_map_const _ _ 6) by reflexivity.
    rewrite length_seq. reflexivity.
Qed.

(** The function is the two pushes of the whole grid. *)
Lemma geometryFromHeightfield_unfold nrows ncols heights scale :
  geometryFromHeightfield nrows ncols heights scale =
  (do vertices <- push [] (grid_vertices nrows ncols heights scale);
   do indices <- push [] (grid_triangles nrows ncols);
   Returned {| vertices := Float32Array vertices; indices := Uint32Array indices |}).
Proof.
  unfold geometryFromHeightfield.
  rewrite (forM_push
             (fun j => flat_map (fun i => vertex nrows ncols heights scale i j)
                         (seq 0 (S nrows)))); [| |apply fits_nil].
  2:{ intros j arr Hfit. apply (forM_push (fun i => vertex nrows ncols heights scale i j));
      [|exact Hfit]. intros i a _. reflexivity. }
  fold (grid_vertices nrows ncols heights scale).
  destruct (push [] (grid_vertices nrows ncols heights scale)) as [vs|e]; simpl;
    [|reflexivity].
  rewrite (forM_push (fun j => flat_map (fun i => cell_triangles ncols i j) (seq 0 nrows)));
    [reflexivity| |apply fits_nil].
  intros j arr Hfit. apply (forM_push (fun i => cell_triangles ncols i j)); [|exact Hfit].
  intros i a _. rewrite push_push. unfold cell_triangles.
  rewrite !Z.add_0_r. reflexivity.
Qed.

(** Every corner index of the grid is below the number of grid points. *)
Lemma grid_triangles_bound R C k :
  In k (grid_triangles R C) ->
  (0 <= k < (Z.of_nat R + 1) * (Z.of_nat C + 1))%Z.
Proof.
  unfold grid_triangles. rewrite in_flat_map. intros (j & Hj & Hk).
  rewrite in_flat_map in Hk. destruct Hk as (i & Hi & Hk).
  apply in_seq in Hj, Hi. unfold cell_triangles in Hk. simpl in Hk.
  assert (Hi' : (0 <= Z.of_nat i <= Z.of_nat R - 1)%Z) by lia.
  assert (Hj' : (0 <= Z.of_nat j <= Z.of_nat C - 1)%Z) by lia.
  destruct Hk as [<-|[<-|[<-|[<-|[<-|[<-|[]]]]]]]; nia.
Qed.

Lemma Uint32Array_id l :
  (forall k, In k l -> (0 <= k < 4294967296)%Z) -> Uint32Array l = l.
Proof.
  intros Hl. unfold Uint32Array. rewrite <- (map_id l) at 2.
  apply map_ext_in. intros k Hk. unfold ToUint32. apply Z.mod_small. auto.
Qed.

(** C1. [geometryFromHeightfield] is a function of its four arguments alone
    (two calls on the same inputs give the same outcome); it returns whenever
    its two arrays fit the array length limit; whenever it returns, the index
    sequence is exactly the [R * C] cells, each as the triangles
    [(i1, i3, i2)] and [(i3, i4, i2)], and the vertex sequence holds three
    binary32 coordinates per grid point; and on the unit cell with zero
    heights and scale [(2, 1, 2)] it returns the four corners of the flat
    2 x 2 quad centred at the origin with indices [[0,2,1,2,3,1]]. *)
Theorem geometryFromHeightfield_correct
  (R C : nat) (heights : list number) (scale : RAPIER.Vector) :
  (forall g1 g2,
      geometryFromHeightfield R C heights scale = g1 ->
      geometryFromHeightfield R C heights scale = g2 -> g1 = g2)
  /\ ((3 * ((Z.of_nat R + 1) * (Z.of_nat C + 1)) <= MAX_ARRAY_LENGTH)%Z ->
      (6 * (Z.of_nat R * Z.of_nat C) <= MAX_ARRAY_LENGTH)%Z ->
      returns (geometryFromHeightfield R C heights scale))
  /\ (forall g,
      geometryFromHeightfield R C heights scale = Returned g ->
      indices g = grid_triangles R C
      /\ length (indices g) = (6 * (R * C))%nat
      /\ vertices g = Float32Array (grid_vertices R C heights scale)
      /\ length (vertices g) = (3 * ((R + 1) * (C + 1)))%nat)
  /\ geometryFromHeightfield 1 1 [0; 0; 0; 0]%float (RAPIER.mkVector 2 1 2)
     = Returned {| vertices := [-1; 0; -1;  -1; 0; 1;  1; 0; -1;  1; 0; 1]%float;
                   indices := [0; 2; 1; 2; 3; 1]%Z |}.
Proof.
  split; [intros g1 g2 <- <-; reflexivity|].
  split; [|split; [|vm_compute; reflexivity]].
  - intros Hv Hi. rewrite geometryFromHeightfield_unfold.
    rewrite push_fits.
    2:{ unfold fits. rewrite app_nil_l, length_grid_vertices. lia. }
    simpl. rewrite push_fits.
    2:{ unfold fits. rewrite app_nil_l, length_grid_triangles. lia. }
    simpl. eexists. reflexivity.
  - intros g. rewrite geometryFromHeightfield_unfold.
    destruct (push [] (grid_vertices R C heights scale)) as [vs|e] eqn:Hvs;
      simpl; [|discriminate].
    destruct (push [] (grid_triangles R C)) as [ixs|e] eqn:His;
      simpl; [|discriminate].
    intros [= <-]. simpl.
    apply push_Returned in Hvs as [-> Hfv]. apply push_Returned in His as [-> _].
    rewrite !app_nil_l in *. unfold fits in Hfv. rewrite length_grid_vertices in Hfv.
    assert (Hid : Uint32Array (grid_triangles R C) = grid_triangles R C).
    { apply Uint32Array_id. intros k Hk. apply grid_triangles_bound in Hk.
      unfold MAX_ARRAY_LENGTH in Hfv. lia. }
    rewrite Hid. split; [reflexivity|]. split; [apply length_grid_triangles|].
    split; [reflexivity|].
    unfold Float32Array. rewrite length_map. apply length_grid_vertices.
Qed.

(** The unit cell is within the limits, so the call returns. *)
Lemma geometryFromHeightfield_correct_witness :
  returns (geometryFromHeightfield 1 1 [0; 0; 0; 0]%float (RAPIER.mkVector 2 1 2)).
Proof.
  apply (proj1 (proj2 (geometryFromHeightfield_correct 1 1 [0; 0; 0; 0]%float
                         (RAPIER.mkVector 2 1 2)))); vm_compute; discriminate.
Defined.

End HeightfieldFacts.

(** ** Collider descriptors (C2, C6, C8, C9) *)

Section ColliderFacts.
Import JS THREE Context Collider.
Variable setFromEuler : Euler -> Quaternion.

(** The steps of [colliderDesc] after [setActiveEvents] do not exist, and the
    steps before it leave the event mask alone. *)
Lemma colliderDesc_activeEvents cb props ctx d0 :
  cb tt = Some d0 ->
  exists d,
    colliderDesc setFromEuler cb props ctx = Some d
    /\ RAPIER.activeEvents d =
       if present (onCollide props) || shouldCollidersListenForContactEvents ctx
       then RAPIER.ActiveEvents_CONTACT_EVENTS
       else RAPIER.activeEvents d0.
Proof.
  intros Hcb. unfold colliderDesc. rewrite Hcb. eexists. split; [reflexivity|].
  destruct (present (onCollide props) || shouldCollidersListenForContactEvents ctx);
    [reflexivity|].
  destruct (position props) as [[v|a b c]|], (friction props) as [f|],
    (restitution props) as [r|], (density props) as [v'|]; simpl;
    repeat match goal with |- context [truthy ?v] => destruct (truthy v) end;
    reflexivity.
Qed.

(** C2. A collider built by [useCollider] from a fresh engine descriptor has
    its contact-event flag set exactly when its own [onCollide] is present or
    the enclosing [RigidBody] has an [onCollide]; in particular a collider
    without [onCollide] below a body that has one has the flag set. *)
Theorem useCollider_contact_events
  (s : RAPIER.Shape) (props : ColliderProps)
  (parent : option (option RAPIER.RigidBody * Body.RigidBodyProps)) :
  exists d,
    colliderDesc setFromEuler (fun _ => Some (RAPIER.ColliderDesc_new s)) props
      (useContext parent) = Some d
    /\ (RAPIER.emitsContactEvents d = true <->
        (is_Some (onCollide props)
         \/ exists rb bprops, parent = Some (rb, bprops)
                              /\ is_Some (Body.onCollide bprops)))
    /\ (onCollide props = None ->
        (exists rb bprops, parent = Some (rb, bprops)
                           /\ is_Some (Body.onCollide bprops)) ->
        RAPIER.emitsContactEvents d = true).
Proof.
  destruct (colliderDesc_activeEvents (fun _ => Some (RAPIER.ColliderDesc_new s))
              props (useContext parent) _ eq_refl) as (d & Hd & Hev).
  exists d. split; [exact Hd|].
  assert (Hiff : RAPIER.emitsContactEvents d = true <->
        (is_Some (onCollide props)
         \/ exists rb bprops, parent = Some (rb, bprops)
                              /\ is_Some (Body.onCollide bprops))).
  { unfold RAPIER.emitsContactEvents. rewrite Hev. clear Hev Hd.
    destruct (onCollide props) as [cb|]; simpl.
    - split; [intros _; left; eauto | reflexivity].
    - destruct parent as [[rb bprops]|]; simpl.
      + destruct (Body.onCollide bprops) as [cb|] eqn:Hb; simpl.
        * split; [intros _; right; exists rb, bprops; rewrite Hb; eauto | reflexivity].
        * split; [discriminate|].
          intros [[? [=]]|(rb' & bp' & [= <- <-] & [? Hcb])]. congruence.
      + split; [discriminate|].
        intros [[? [=]]|(rb' & bp' & [=] & _)]. }
  split; [exact Hiff|]. intros _ Hparent. apply Hiff. right. exact Hparent.
Qed.

(** C6 (as amended). [useCollider] and [RigidBody] resolve the orientation
    in the same order: an explicit [quaternion] wins over [rotation]; the
    quaternion derived from [rotation] is used only without an explicit one;
    with neither, the identity.  The collider's descriptor carries the
    resolved quaternion as its rotation.  The body does not receive the
    resolved quaternion itself: it receives the world quaternion the scene
    graph reads from the node whose local orientation is the resolved one. *)
Theorem orientation_resolution
  (getWorldPosition : Object3D -> Vector3)
  (getWorldQuaternion : Object3D -> Quaternion) :
  (forall (props : ColliderProps) cb ctx d0,
      cb tt = Some d0 ->
      exists d,
        colliderDesc setFromEuler cb props ctx = Some d
        /\ RAPIER.rotation d =
           match quaternion props, rotation props with
           | Some (Quaternion_arr x y z w), _ => RAPIER.mkRotation x y z w
           | Some (Quaternion_obj q), _ => RAPIER.mkRotation (qx q) (qy q) (qz q) (qw q)
           | None, Some (Euler_arr x y z o) =>
               let q := setFromEuler (mkEuler x y z (default XYZ o)) in
               RAPIER.mkRotation (qx q) (qy q) (qz q) (qw q)
           | None, Some (Euler_obj e) =>
               let q := setFromEuler e in
               RAPIER.mkRotation (qx q) (qy q) (qz q) (qw q)
           | None, None => RAPIER.mkRotation 0 0 0 1
           end)
  /\ (forall (props : Body.RigidBodyProps),
        snd (Body.initialPose setFromEuler getWorldPosition getWorldQuaternion props)
        = getWorldQuaternion
            (mkObject3D (Body.positionVec props)
               match Body.quaternion props, Body.rotation props with
               | Some (Quaternion_arr x y z w), _ => mkQuaternion x y z w
               | Some (Quaternion_obj q), _ => q
               | None, Some (Euler_arr x y z o) =>
                   setFromEuler (mkEuler x y z (default XYZ o))
               | None, Some (Euler_obj e) => setFromEuler e
               | None, None => mkQuaternion 0 0 0 1
               end)).
Proof.
  split.
  - intros props cb ctx d0 Hcb. unfold colliderDesc. rewrite Hcb.
    eexists. split; [reflexivity|].
    assert (Hq : toRotation (resolveQuat setFromEuler props) =
                 match quaternion props, rotation props with
                 | Some (Quaternion_arr x y z w), _ => RAPIER.mkRotation x y z w
                 | Some (Quaternion_obj q), _ =>
                     RAPIER.mkRotation (qx q) (qy q) (qz q) (qw q)
                 | None, Some (Euler_arr x y z o) =>
                     let q := setFromEuler (mkEuler x y z (default XYZ o)) in
                     RAPIER.mkRotation (qx q) (qy q) (qz q) (qw q)
                 | None, Some (Euler_obj e) =>
                     let q := setFromEuler e in
                     RAPIER.mkRotation (qx q) (qy q) (qz q) (qw q)
                 | None, None => RAPIER.mkRotation 0 0 0 1
                 end).
    { unfold resolveQuat.
      destruct (quaternion props) as [[q|a b c d]|], (rotation props) as [[e|a' b' c' o]|];
        reflexivity. }
    transitivity (toRotation (resolveQuat setFromEuler props)); [|exact Hq].
    clear Hq.
    destruct (present (onCollide props) || shouldCollidersListenForContactEvents ctx),
      (position props) as [[v|a b c]|], (friction props) as [f|],
      (restitution props) as [r|], (density props) as [v'|]; simpl;
      repeat match goal with |- context [truthy ?v] => destruct (truthy v) end;
      reflexivity.
  - intros props. unfold Body.initialPose, Body.object3D, Body.rotationQuat. cbn [snd].
    destruct (Body.quaternion props) as [[q|a b c d]|],
      (Body.rotation props) as [[e|a' b' c' o]|]; reflexivity.
Qed.

(** What the capsule, cylinder and cone components hand to the engine. *)
Lemma round_shapes_desc radius height props ctx :
  RAPIER.shape <$> CapsuleCollider setFromEuler (radius, height) props ctx
    = Some (RAPIER.Capsule radius (height / 2))
  /\ RAPIER.shape <$> CylinderCollider setFromEuler (radius, height) props ctx
    = Some (RAPIER.Cylinder (height / 2) radius)
  /\ RAPIER.shape <$> ConeCollider setFromEuler (radius, height) props ctx
    = Some (RAPIER.Cone (height / 2) radius).
Proof.
  unfold CapsuleCollider, CylinderCollider, ConeCollider, colliderDesc.
  repeat split;
    destruct (present (onCollide props) || shouldCollidersListenForContactEvents ctx),
      (position props) as [[v|a b c]|], (friction props) as [f|],
      (restitution props) as [r|], (density props) as [v'|]; simpl;
      repeat match goal with |- context [truthy ?v] => destruct (truthy v) end;
      reflexivity.
Qed.

(** C8 (the code at a failing input). For [args = [1, 4]] (radius 1, height 4)
    the capsule descriptor has half-height 1 and radius 2: the two arguments
    are swapped with respect to the cylinder and cone, which get half-height
    2 and radius 1. *)
Theorem CapsuleCollider_swaps_arguments props ctx :
  RAPIER.shape <$> CapsuleCollider setFromEuler (1, 4)%float props ctx
    = Some (RAPIER.Capsule 1 2)
  /\ RAPIER.shape <$> CapsuleCollider setFromEuler (1, 4)%float props ctx
    <> Some (RAPIER.Capsule 2 1)
  /\ RAPIER.shape <$> CylinderCollider setFromEuler (1, 4)%float props ctx
    = Some (RAPIER.Cylinder 2 1)
  /\ RAPIER.shape <$> ConeCollider setFromEuler (1, 4)%float props ctx
    = Some (RAPIER.Cone 2 1).
Proof.
  destruct (round_shapes_desc 1 4 props ctx) as (Hcap & Hcyl & Hcone).
  rewrite Hcap, Hcyl, Hcone.
  assert (Hhalf : (4 / 2)%float = 2%float) by (vm_compute; reflexivity).
  rewrite Hhalf. split; [reflexivity|]. split; [|split; reflexivity].
  intros [=].
Qed.

End ColliderFacts.

(** A ball without [onCollide] below a body subscribed with [Closure 0]. *)
Lemma useCollider_contact_events_witness :
  exists d,
    Collider.colliderDesc (fun _ => THREE.Quaternion_new)
      (fun _ => Some (RAPIER.ColliderDesc_new (RAPIER.Ball 1)))
      (Collider.mkColliderProps None None None None None None None)
      (Collider.useContext
         (Some (None, Body.mkRigidBodyProps None None None Body.dynamic
                        (Some (Context.Closure 0))))) = Some d
    /\ RAPIER.emitsContactEvents d = true.
Proof.
  destruct (useCollider_contact_events (fun _ => THREE.Quaternion_new) (RAPIER.Ball 1)
              (Collider.mkColliderProps None None None None None None None)
              (Some (None, Body.mkRigidBodyProps None None None Body.dynamic
                             (Some (Context.Closure 0))))) as (d & Hd & _ & Hin).
  exists d. split; [exact Hd|]. apply Hin; [reflexivity|].
  eexists _, _. split; [reflexivity|]. simpl. eauto.
Defined.

(** ** The frame loop (C4, C5, C7, C10) *)

Section FrameFacts.
Import JS THREE Context Frame.
Context `{Engine} `{Application}.

Lemma same_world_refl s : same_world s s.
Proof. repeat split. Qed.

Lemma same_world_trans s1 s2 s3 :
  same_world s1 s2 -> same_world s2 s3 -> same_world s1 s3.
Proof. unfold same_world. intros (-> & -> & ->) (-> & -> & ->). repeat split. Qed.

(** One guarded optional call is the delivery, if there is one. *)
Lemma and_then_call_opt ctx (begin : bool) kind registry h :
  and_then (registry !! h) (fun c =>
    call_opt (events ctx !! uuid kind h
              ≫= (if begin then onCollideBegin else onCollideEnd)) {| target := c |})
  = match delivery ctx begin kind registry h with
    | Some d => deliver d
    | None => ret tt
    end.
Proof.
  unfold delivery, and_then, call_opt, deliver.
  destruct (registry !! h) as [node|]; [|reflexivity].
  destruct (events ctx !! uuid kind h) as [l|]; [|reflexivity]. simpl.
  destruct begin; [destruct (onCollideBegin l) | destruct (onCollideEnd l)]; reflexivity.
Qed.

(** The handler of one contact event runs its deliveries in order. *)
Lemma onContact_deliveries ctx ev s :
  onContact ctx ev s = forEach (deliveries ctx (world s) ev) deliver s.
Proof.
  unfold onContact, deliveries.
  unfold seq_bind at 1 2. unfold gets. cbv beta iota.
  destruct (started ev).
  - rewrite (and_then_call_opt ctx true "collider" (colliders ctx) (handle1 ev)).
    rewrite (and_then_call_opt ctx true "collider" (colliders ctx) (handle2 ev)).
    rewrite (and_then_call_opt ctx true "rigidBody" (bodies ctx)
               (colliderParent (world s) (handle1 ev))).
    rewrite (and_then_call_opt ctx true "rigidBody" (bodies ctx)
               (colliderParent (world s) (handle2 ev))).
    destruct (delivery ctx true "collider" (colliders ctx) (handle1 ev)) as [[c1 e1]|],
      (delivery ctx true "collider" (colliders ctx) (handle2 ev)) as [[c2 e2]|],
      (delivery ctx true "rigidBody" (bodies ctx)
         (colliderParent (world s) (handle1 ev))) as [[c3 e3]|],
      (delivery ctx true "rigidBody" (bodies ctx)
         (colliderParent (world s) (handle2 ev))) as [[c4 e4]|];
      unfold seq_bind, deliver, invoke, ret; simpl;
      repeat match goal with
             | |- context [callbackEnd ?c ?e] => destruct (callbackEnd c e); simpl
             end; reflexivity.
  - rewrite (and_then_call_opt ctx false "collider" (colliders ctx) (handle1 ev)).
    rewrite (and_then_call_opt ctx false "collider" (colliders ctx) (handle2 ev)).
    rewrite (and_then_call_opt ctx false "rigidBody" (bodies ctx)
               (colliderParent (world s) (handle1 ev))).
    rewrite (and_then_call_opt ctx false "rigidBody" (bodies ctx)
               (colliderParent (world s) (handle2 ev))).
    destruct (delivery ctx false "collider" (colliders ctx) (handle1 ev)) as [[c1 e1]|],
      (delivery ctx false "collider" (colliders ctx) (handle2 ev)) as [[c2 e2]|],
      (delivery ctx false "rigidBody" (bodies ctx)
         (colliderParent (world s) (handle1 ev))) as [[c3 e3]|],
      (delivery ctx false "rigidBody" (bodies ctx)
         (colliderParent (world s) (handle2 ev))) as [[c4 e4]|];
      unfold seq_bind, deliver, invoke, ret; simpl;
      repeat match goal with
             | |- context [callbackEnd ?c ?e] => destruct (callbackEnd c e); simpl
             end; reflexivity.
Qed.

Lemma forEach_deliver_cons d l s :
  forEach (d :: l) deliver s =
  match callbackEnd (fst d) (snd d) with
  | None => forEach l deliver (logged (invocation d) s)
  | Some e => (Raised e, logged (invocation d) s)
  end.
Proof.
  cbn [forEach]. unfold seq_bind, deliver at 1, invoke.
  destruct (callbackEnd (fst d) (snd d)); reflexivity.
Qed.

(** A run of deliveries throws only what one of its callbacks throws. *)
Lemma forEach_deliver_Raised l s e :
  fst (forEach l deliver s) = Raised e ->
  exists d, In d l /\ callbackEnd (fst d) (snd d) = Some e.
Proof.
  revert s. induction l as [|d l IH]; intros s; [discriminate|].
  rewrite forEach_deliver_cons.
  destruct (callbackEnd (fst d) (snd d)) as [e'|] eqn:Hend; cbn [fst].
  - intros [= <-]. exists d. split; [left; reflexivity | exact Hend].
  - intros Hr. destruct (IH _ Hr) as (d' & Hin & Hd').
    exists d'. split; [right; exact Hin | exact Hd'].
Qed.

(** Running deliveries only extends the trace, by invocations; when no
    callback throws, all of them are made and the run returns. *)
Lemma forEach_deliver l s :
  same_world s (snd (forEach l deliver s))
  /\ (exists invs, trace (snd (forEach l deliver s)) = trace s ++ invs
                   /\ Forall is_invoke invs)
  /\ ((forall d, In d l -> callbackEnd (fst d) (snd d) = None) ->
      fst (forEach l deliver s) = Returned tt
      /\ trace (snd (forEach l deliver s)) = trace s ++ map invocation l).
Proof.
  revert s. induction l as [|d l IH]; intros s.
  - simpl. split; [apply same_world_refl|]. split.
    + exists []. rewrite app_nil_r. split; [reflexivity | constructor].
    + intros _. rewrite app_nil_r. split; reflexivity.
  - rewrite forEach_deliver_cons.
    destruct (IH (logged (invocation d) s)) as (Hsame & (invs & Htr & Hinv) & Hall).
    destruct (callbackEnd (fst d) (snd d)) as [e|] eqn:Hend; cbn [fst snd].
    + split; [repeat split|]. split.
      * exists [invocation d]. split; [reflexivity|].
        constructor; [exact I | constructor].
      * intros Hno. rewrite (Hno d (or_introl eq_refl)) in Hend. discriminate.
    + split; [exact (same_world_trans s _ _ (conj eq_refl (conj eq_refl eq_refl)) Hsame)|].
      split.
      * exists (invocation d :: invs). split.
        -- rewrite Htr. simpl. rewrite <- app_assoc. reflexivity.
        -- constructor; [exact I | exact Hinv].
      * intros Hno. destruct Hall as [Hret Htr'].
        { intros d' Hd'. apply Hno. right. exact Hd'. }
        split; [exact Hret|]. rewrite Htr'. simpl.
        rewrite <- app_assoc. reflexivity.
Qed.

(** Draining a queue: the handlers only extend the trace, by invocations,
    and the drain itself returns. *)
Lemma drainEach_returns q (f : ContactEvent -> M unit) s :
  fst (drainEach q f s) = Returned tt.
Proof. revert s. induction q as [|ev q IH]; intros s; [reflexivity | apply IH]. Qed.

Lemma drainEach_onContact ctx q s :
  same_world s (snd (drainEach q (onContact ctx) s))
  /\ (exists invs, trace (snd (drainEach q (onContact ctx) s)) = trace s ++ invs
                   /\ Forall is_invoke invs)
  /\ ((forall cb e, callbackEnd cb e = None) ->
      fst (drainEach q (onContact ctx) s) = Returned tt
      /\ trace (snd (drainEach q (onContact ctx) s))
         = trace s ++ map invocation (flat_map (deliveries ctx (world s)) q)).
Proof.
  revert s. induction q as [|ev q IH]; intros s.
  - simpl. split; [apply same_world_refl|]. split.
    + exists []. rewrite app_nil_r. split; [reflexivity | constructor].
    + intros _. rewrite app_nil_r. split; reflexivity.
  - cbn [drainEach]. rewrite onContact_deliveries.
    destruct (forEach_deliver (deliveries ctx (world s) ev) s)
      as (Hsame & (invs & Htr & Hinv) & Hall).
    destruct (IH (snd (forEach (deliveries ctx (world s) ev) deliver s)))
      as (Hsame1 & (invs1 & Htr1 & Hinv1) & Hall1).
    split; [exact (same_world_trans _ _ _ Hsame Hsame1)|]. split.
    + exists (invs ++ invs1). split.
      * rewrite Htr1, Htr, <- app_assoc. reflexivity.
      * apply Forall_app. split; assumption.
    + intros Hno. destruct Hall as [_ Htr']; [intros d _; apply Hno|].
      destruct (Hall1 Hno) as [Hret Htr1'].
      split; [exact Hret|]. rewrite Htr1', Htr'. simpl.
      rewrite map_app, <- app_assoc. destruct Hsame as (-> & _). reflexivity.
Qed.

(** One visited body: its pose is copied to its target node, if any. *)
Lemma syncPose_run ctx rb s :
  syncPose ctx rb s =
  (Returned tt,
   match pose_target ctx rb with
   | Some o =>
       {| world := world s; eventQueue := eventQueue s;
          scene := alter (fun n => mkObject3D (position n) (snd (body_pose rb))) o
                     (alter (fun n => mkObject3D (fst (body_pose rb)) (quaternion n)) o
                        (scene s));
          trace := (trace s ++ [ASetPosition o (fst (body_pose rb))])
                     ++ [ASetQuaternion o (snd (body_pose rb))] |}
   | None => s
   end).
Proof.
  unfold syncPose, pose_target.
  destruct (bodies ctx !! RAPIER.handle rb) as [o|]; [|reflexivity].
  destruct (negb (RAPIER.isSleeping rb) && negb (RAPIER.isStatic rb)); reflexivity.
Qed.

(** Pose propagation over the visited bodies. *)
Lemma forEach_syncPose ctx l s :
  fst (forEach l (syncPose ctx) s) = Returned tt
  /\ world (snd (forEach l (syncPose ctx) s)) = world s
  /\ eventQueue (snd (forEach l (syncPose ctx) s)) = eventQueue s
  /\ (exists writes,
        trace (snd (forEach l (syncPose ctx) s)) = trace s ++ writes
        /\ Forall is_write writes
        /\ forall a, In a writes ->
              exists rb o,
                In rb l /\ pose_target ctx rb = Some o
                /\ (a = ASetPosition o (fst (body_pose rb))
                    \/ a = ASetQuaternion o (snd (body_pose rb))))
  /\ (forall n, (forall rb, In rb l -> pose_target ctx rb <> Some n) ->
                scene (snd (forEach l (syncPose ctx) s)) !! n = scene s !! n).
Proof.
  revert s. induction l as [|rb l IH]; intros s.
  - simpl. repeat split.
    exists []. rewrite app_nil_r. split; [reflexivity|]. split; [constructor|].
    intros a [].
  - cbn [forEach]. unfold seq_bind. rewrite syncPose_run.
    match goal with |- context [forEach l (syncPose ctx) ?s1] =>
      destruct (IH s1) as (Hret & Hw & Hq & (writes & Htr & Hwr & Hsrc) & Hsc) end.
    split; [exact Hret|].
    destruct (pose_target ctx rb) as [o|] eqn:Htarget.
    + split; [rewrite Hw; reflexivity|]. split; [rewrite Hq; reflexivity|]. split.
      * exists ([ASetPosition o (fst (body_pose rb));
                 ASetQuaternion o (snd (body_pose rb))] ++ writes).
        split; [rewrite Htr; cbn [trace]; rewrite <- !app_assoc; reflexivity|].
        split.
        -- apply Forall_app. split; [|exact Hwr].
           repeat constructor; unfold is_write; simpl; eauto.
        -- intros a Ha. apply in_app_or in Ha as [Ha|Ha].
           ++ exists rb, o. split; [left; reflexivity|]. split; [exact Htarget|].
              destruct Ha as [<-|[<-|[]]]; [left | right]; reflexivity.
           ++ destruct (Hsrc a Ha) as (rb' & o' & Hin & Ht).
              exists rb', o'. split; [right; exact Hin | exact Ht].
      * intros n Hn. rewrite Hsc by (intros rb' Hin; apply Hn; right; exact Hin).
        cbn [scene]. assert (o <> n).
        { intros ->. apply (Hn rb); [left; reflexivity | exact Htarget]. }
        rewrite !lookup_alter_ne by assumption. reflexivity.
    + split; [exact Hw|]. split; [exact Hq|]. split.
      * exists writes. split; [exact Htr|]. split; [exact Hwr|].
        intros a Ha. destruct (Hsrc a Ha) as (rb' & o' & Hin & Ht).
        exists rb', o'. split; [right; exact Hin | exact Ht].
      * intros n Hn. apply Hsc. intros rb' Hin. apply Hn. right. exact Hin.
Qed.

(** One tick, phase by phase. *)
Lemma tick_run ctx s :
  exists writes invs,
    trace (snd (tick ctx s)) = trace s ++ [AStep] ++ writes ++ [ADrain] ++ invs
    /\ Forall is_write writes
    /\ Forall is_invoke invs
    /\ world (snd (tick ctx s)) = fst (step (world s) (eventQueue s))
    /\ (forall a, In a writes ->
          exists rb o,
            In rb (activeRigidBodies (fst (step (world s) (eventQueue s))))
            /\ pose_target ctx rb = Some o
            /\ (a = ASetPosition o (fst (body_pose rb))
                \/ a = ASetQuaternion o (snd (body_pose rb))))
    /\ (forall n,
          (forall rb,
              In rb (activeRigidBodies (fst (step (world s) (eventQueue s)))) ->
              pose_target ctx rb <> Some n) ->
          scene (snd (tick ctx s)) !! n = scene s !! n)
    /\ ((forall cb e, callbackEnd cb e = None) ->
        fst (tick ctx s) = Returned tt
        /\ eventQueue (snd (tick ctx s)) = []
        /\ invs = map invocation
                    (flat_map (deliveries ctx (fst (step (world s) (eventQueue s))))
                       (snd (step (world s) (eventQueue s))))).
Proof.
  destruct (tick ctx s) as [o sf] eqn:Htick. cbn [fst snd].
  unfold tick, forEachActiveRigidBody, drainContactEvents, world_step,
    seq_bind, gets, log in Htick.
  destruct (step (world s) (eventQueue s)) as [w q] eqn:Hstep.
  cbn [fst snd world eventQueue scene trace] in *.
  match type of Htick with
  | context [forEach (activeRigidBodies w) (syncPose ctx) ?s1] =>
      destruct (forEach_syncPose ctx (activeRigidBodies w) s1)
        as (Hret & Hw & Hq & (writes & Htr & Hwr & Hsrc) & Hsc);
      destruct (forEach (activeRigidBodies w) (syncPose ctx) s1) as [o2 s2] eqn:Hsync
  end.
  cbn [fst snd world eventQueue scene trace] in *. subst o2.
  match type of Htick with
  | context [drainEach (eventQueue s2) (onContact ctx) ?s3] =>
      destruct (drainEach_onContact ctx (eventQueue s2) s3)
        as ((Hw3 & Hq3 & Hsc3) & (invs & Htr3 & Hinv) & Hall);
      destruct (drainEach (eventQueue s2) (onContact ctx) s3) as [o4 s4] eqn:Hdrain
  end.
  cbn [fst snd world eventQueue scene trace] in *.
  exists writes, invs.
  assert (Htrace : trace s4 = trace s ++ [AStep] ++ writes ++ [ADrain] ++ invs).
  { rewrite Htr3, Htr. rewrite <- !app_assoc. reflexivity. }
  destruct o4 as [[]|e]; injection Htick as <- <-;
    cbn [fst snd world eventQueue scene trace].
  - split; [exact Htrace|]. split; [exact Hwr|]. split; [exact Hinv|].
    split; [congruence|]. split; [exact Hsrc|].
    split; [intros n Hn; rewrite Hsc3; apply Hsc; exact Hn|].
    intros Hno. split; [reflexivity|]. split; [reflexivity|].
    destruct (Hall Hno) as [_ Htr4]. rewrite Htr3 in Htr4.
    apply app_inv_head in Htr4. rewrite Hw, Hq in Htr4. exact Htr4.
  - split; [exact Htrace|]. split; [exact Hwr|]. split; [exact Hinv|].
    split; [congruence|]. split; [exact Hsrc|].
    split; [intros n Hn; rewrite Hsc3; apply Hsc; exact Hn|].
    intros Hno. destruct (Hall Hno) as [Hret' _]. discriminate.
Qed.

Lemma pose_target_Some ctx rb n :
  pose_target ctx rb = Some n <->
  bodies ctx !! RAPIER.handle rb = Some n
  /\ RAPIER.isSleeping rb = false /\ RAPIER.isStatic rb = false.
Proof.
  unfold pose_target.
  destruct (bodies ctx !! RAPIER.handle rb) as [o|];
    destruct (RAPIER.isSleeping rb), (RAPIER.isStatic rb); simpl;
    split; try discriminate; intros H'; try (destruct H' as (? & ? & ?); discriminate).
  - injection H' as ->. auto.
  - destruct H' as ([= ->] & _). reflexivity.
Qed.

(** The actions a tick adds to the trace. *)
Lemma tick_new_actions ctx s writes invs :
  trace (snd (tick ctx s)) = trace s ++ [AStep] ++ writes ++ [ADrain] ++ invs ->
  drop (length (trace s)) (trace (snd (tick ctx s)))
  = [AStep] ++ writes ++ [ADrain] ++ invs.
Proof. intros ->. rewrite drop_app_length. reflexivity. Qed.


(** C5. A pose write made during a tick goes to the node registered for a
    visited body that is neither asleep nor static, and carries that body's
    pose; a node all of whose visited bodies are asleep or static, and
    in particular a node registered for no handle, keeps its transform. *)
Theorem pose_propagation_active_only ctx s (n : Object3DRef) :
  (forall a,
      In a (drop (length (trace s)) (trace (snd (tick ctx s)))) ->
      written_node a = Some n ->
      exists rb,
        In rb (activeRigidBodies (fst (step (world s) (eventQueue s))))
        /\ bodies ctx !! RAPIER.handle rb = Some n
        /\ RAPIER.isSleeping rb = false
        /\ RAPIER.isStatic rb = false
        /\ (a = ASetPosition n (fst (body_pose rb))
            \/ a = ASetQuaternion n (snd (body_pose rb))))
  /\ ((forall rb,
          In rb (activeRigidBodies (fst (step (world s) (eventQueue s)))) ->
          bodies ctx !! RAPIER.handle rb = Some n ->
          RAPIER.isSleeping rb = true \/ RAPIER.isStatic rb = true) ->
      scene (snd (tick ctx s)) !! n = scene s !! n)
  /\ ((forall h, bodies ctx !! h <> Some n) ->
      scene (snd (tick ctx s)) !! n = scene s !! n).
Proof.
  destruct (tick_run ctx s) as (writes & invs & Htr & Hwr & Hinv & _ & Hsrc & Hsc & _).
  split; [|split].
  - intros a Ha Hn. rewrite (tick_new_actions ctx s writes invs Htr) in Ha.
    assert (Hin : In a writes).
    { simpl in Ha. destruct Ha as [<-|Ha]; [discriminate|].
      apply in_app_or in Ha as [Ha|[<-|Ha]]; [exact Ha | discriminate |].
      rewrite Forall_forall in Hinv. apply list_elem_of_In, Hinv in Ha.
      destruct a; simpl in *; try contradiction; discriminate. }
    destruct (Hsrc a Hin) as (rb & o & Hrb & Ht & Ha').
    assert (o = n) as -> by (destruct Ha' as [-> | ->]; simpl in Hn; congruence).
    apply pose_target_Some in Ht as (Hb & Hsl & Hst).
    exists rb. auto.
  - intros Hidle. apply Hsc. intros rb Hrb Ht.
    apply pose_target_Some in Ht as (Hb & Hsl & Hst).
    destruct (Hidle rb Hrb Hb); congruence.
  - intros Hnone. apply Hsc. intros rb _ Ht.
    apply pose_target_Some in Ht as (Hb & _). exact (Hnone _ Hb).
Qed.

(** C7. The handler of a drained contact event is the run, in order, of the
    deliveries that have both a registered node and a subscribed callback for
    the phase: a delivery lacking either is skipped and the others still take
    place.  The handler throws only what an invoked callback throws; with
    nothing to deliver it returns and changes nothing. *)
Theorem dispatch_skips_missing ctx ev s :
  onContact ctx ev s = forEach (deliveries ctx (world s) ev) deliver s
  /\ (forall begin kind registry h,
        registry !! h = None \/ events ctx !! uuid kind h = None ->
        delivery ctx begin kind registry h = None)
  /\ (deliveries ctx (world s) ev = [] -> onContact ctx ev s = (Returned tt, s))
  /\ (forall e, fst (onContact ctx ev s) = Raised e ->
        exists d, In d (deliveries ctx (world s) ev)
                  /\ callbackEnd (fst d) (snd d) = Some e)
  /\ ((forall d, In d (deliveries ctx (world s) ev) ->
                 callbackEnd (fst d) (snd d) = None) ->
      fst (onContact ctx ev s) = Returned tt
      /\ same_world s (snd (onContact ctx ev s))
      /\ trace (snd (onContact ctx ev s))
         = trace s ++ map invocation (deliveries ctx (world s) ev)).
Proof.
  rewrite onContact_deliveries.
  split; [reflexivity|]. split; [|split; [|split]].
  - intros begin kind registry h [Hr|He]; unfold delivery; rewrite ?Hr, ?He;
      [reflexivity|]. destruct (registry !! h); reflexivity.
  - intros ->. reflexivity.
  - intros e. apply forEach_deliver_Raised.
  - intros Hno.
    destruct (forEach_deliver (deliveries ctx (world s) ev) s) as (Hsame & _ & Hall).
    destruct (Hall Hno) as [Hret Htr]. auto.
Qed.

(** Every listener entry the components create has a begin callback and no
    end callback. *)
Lemma reachable_begin_only events :
  Lifecycle.reachable events ->
  forall k l, events !! k = Some l ->
              is_Some (onCollideBegin l) /\ onCollideEnd l = None.
Proof.
  induction 1 as [|rb cb events events' _ IH Hsub|rb events _ IH
                  |c cb events events' _ IH Hsub|c events _ IH]; intros k l Hk.
  - rewrite lookup_empty in Hk. discriminate.
  - unfold Body.subscribeEffect in Hsub.
    destruct rb as [rb|], cb as [cb|]; injection Hsub as <-; eauto.
    destruct (decide (uuid "rigidBody" (RAPIER.handle rb) = k)) as [<-|Hne].
    + rewrite lookup_insert_eq in Hk. injection Hk as <-. simpl. eauto.
    + rewrite lookup_insert_ne in Hk by exact Hne. eauto.
  - unfold Body.subscribeCleanup in Hk. apply lookup_delete_Some in Hk as [_ Hk]. eauto.
  - unfold Collider.subscribeEffect in Hsub.
    destruct c as [c|], cb as [cb|]; injection Hsub as <-; eauto.
    destruct (decide (uuid "collider" (Collider.handle c) = k)) as [<-|Hne].
    + rewrite lookup_insert_eq in Hk. injection Hk as <-. simpl. eauto.
    + rewrite lookup_insert_ne in Hk by exact Hne. eauto.
  - unfold Collider.subscribeCleanup in Hk. apply lookup_delete_Some in Hk as [_ Hk]. eauto.
Qed.

Lemma delivery_end_None ctx kind registry h :
  Lifecycle.reachable (events ctx) -> delivery ctx false kind registry h = None.
Proof.
  intros Hreach. unfold delivery.
  destruct (registry !! h); [|reflexivity].
  destruct (events ctx !! uuid kind h) as [l|] eqn:Hl; [|reflexivity].
  destruct (reachable_begin_only _ Hreach _ _ Hl) as [_ ->]. reflexivity.
Qed.

(** C10. Every entry of an event map produced by the components holds a
    begin callback and no end callback; hence, on such a map, the handler of
    a contact-end record makes no delivery: it returns and invokes nothing. *)
Theorem contact_end_never_delivered :
  (forall events, Lifecycle.reachable events ->
     forall k l, events !! k = Some l ->
                 is_Some (onCollideBegin l) /\ onCollideEnd l = None)
  /\ (forall ctx ev s,
        Lifecycle.reachable (events ctx) -> started ev = false ->
        deliveries ctx (world s) ev = []
        /\ onContact ctx ev s = (Returned tt, s)).
Proof.
  split; [exact reachable_begin_only|].
  intros ctx ev s Hreach Hend.
  assert (Hnone : deliveries ctx (world s) ev = []).
  { unfold deliveries. rewrite Hend, !delivery_end_None by exact Hreach. reflexivity. }
  split; [exact Hnone|]. rewrite onContact_deliveries, Hnone. reflexivity.
Qed.

End FrameFacts.

(** ** Material options (C9) *)

Section MaterialFacts.
Import JS THREE Context Collider.
Variable setFromEuler : Euler -> Quaternion.

Lemma colliderDesc_material cb props ctx d0 :
  cb tt = Some d0 ->
  exists d,
    colliderDesc setFromEuler cb props ctx = Some d
    /\ RAPIER.friction d = guarded (friction props) (RAPIER.friction d0)
    /\ RAPIER.restitution d = guarded (restitution props) (RAPIER.restitution d0)
    /\ RAPIER.density d = guarded (density props) (RAPIER.density d0).
Proof.
  intros Hcb. unfold colliderDesc, guarded. rewrite Hcb. eexists. split; [reflexivity|].
  destruct (present (onCollide props) || shouldCollidersListenForContactEvents ctx),
    (position props) as [[v|a b c]|], (friction props) as [f|],
    (restitution props) as [r|], (density props) as [v'|]; simpl;
    repeat match goal with |- context [truthy ?v] => destruct (truthy v) end;
    repeat split.
Qed.

(** C9 (the code at a failing input). A ball collider given [friction: 0],
    [restitution: 0] and [density: 0] keeps the engine's friction [0.5] and
    density [1]: the zeros are not applied, whereas non-zero values are. *)
Theorem zero_material_options_ignored :
  (exists d,
      BallCollider setFromEuler 1
        (mkColliderProps None None None (Some 0) (Some 0) (Some 0) None)%float
        RigidBodyContext_default = Some d
      /\ RAPIER.friction d = 0.5%float
      /\ RAPIER.restitution d = 0%float
      /\ RAPIER.density d = 1%float)
  /\ (exists d,
      BallCollider setFromEuler 1
        (mkColliderProps None None None (Some 0.25) (Some 0.75) (Some 2) None)%float
        RigidBodyContext_default = Some d
      /\ RAPIER.friction d = 0.25%float
      /\ RAPIER.restitution d = 0.75%float
      /\ RAPIER.density d = 2%float).
Proof.
  split; eexists; (split; [vm_compute; reflexivity|]); repeat split.
Qed.

End MaterialFacts.

(** ** The handle registries (C3) *)

Section RegistryFacts.
Import JS Context.

(** C3 (as amended). Registering a body or a collider whose handle already
    has an entry returns normally and replaces that entry by the new node,
    leaving every other entry as it was; no error is raised. *)
Theorem register_present_replaces :
  (forall (o : Object3DRef) rb (bodies : gmap N nat),
      is_Some (bodies !! RAPIER.handle rb) ->
      exists bodies',
        Body.registerEffect (Some o) (Some rb) bodies = Returned bodies'
        /\ bodies' !! RAPIER.handle rb = Some o
        /\ forall h, h <> RAPIER.handle rb -> bodies' !! h = bodies !! h)
  /\ (forall (o : Object3DRef) c (colliders : gmap N nat),
      is_Some (colliders !! Collider.handle c) ->
      exists colliders',
        Collider.registerEffect (Some o) (Some c) colliders = Returned colliders'
        /\ colliders' !! Collider.handle c = Some o
        /\ forall h, h <> Collider.handle c -> colliders' !! h = colliders !! h).
Proof.
  split.
  - intros o rb bodies _. eexists. split; [reflexivity|].
    split; [apply lookup_insert_eq|]. intros h Hh. apply lookup_insert_ne. congruence.
  - intros o c colliders _. eexists. split; [reflexivity|].
    split; [apply lookup_insert_eq|]. intros h Hh. apply lookup_insert_ne. congruence.
Qed.

End RegistryFacts.

(** ** Concrete runs *)

(** C3 as stated fails: body 11 and collider 1 of the scenario are
    registered, and registering them again with node 999 returns the map
    with the entry overwritten instead of raising. *)
Lemma duplicate_registration_counterexample :
  is_Some (Context.bodies Scenario.context !! RAPIER.handle Scenario.falling)
  /\ Body.registerEffect (Some 999%nat) (Some Scenario.falling)
       (Context.bodies Scenario.context)
     = JS.Returned (<[11%N := 999%nat]> (Context.bodies Scenario.context))
  /\ (forall e, Body.registerEffect (Some 999%nat) (Some Scenario.falling)
                  (Context.bodies Scenario.context) <> JS.Raised e)
  /\ is_Some (Context.colliders Scenario.context !! 1%N)
  /\ Collider.registerEffect (Some 999%nat) (Some (Collider.mkCollider 1))
       (Context.colliders Scenario.context)
     = JS.Returned (<[1%N := 999%nat]> (Context.colliders Scenario.context))
  /\ (forall e, Collider.registerEffect (Some 999%nat) (Some (Collider.mkCollider 1))
                  (Context.colliders Scenario.context) <> JS.Raised e).
Proof.
  split; [vm_compute; eauto|]. split; [reflexivity|]. split; [discriminate|].
  split; [vm_compute; eauto|]. split; [reflexivity|]. discriminate.
Qed.

(** Re-registering body 11 of the scenario. *)
Lemma register_present_replaces_witness :
  exists bodies',
    Body.registerEffect (Some 999%nat) (Some Scenario.falling)
      (Context.bodies Scenario.context) = JS.Returned bodies'
    /\ bodies' !! 11%N = Some 999%nat.
Proof.
  destruct (proj1 register_present_replaces 999%nat Scenario.falling
              (Context.bodies Scenario.context)) as (bodies' & Hret & Hnew & _).
  - vm_compute. eauto.
  - exists bodies'. split; [exact Hret | exact Hnew].
Defined.


(** The scenario's static body: node 102 keeps its transform. *)
Lemma pose_propagation_active_only_witness :
  Frame.scene (snd (Frame.tick Scenario.context Scenario.initial)) !! 102%nat
  = Frame.scene Scenario.initial !! 102%nat.
Proof.
  apply (proj1 (proj2 (@pose_propagation_active_only Scenario.engine Scenario.application
                         Scenario.context Scenario.initial 102%nat))).
  intros rb [<-|[<-|[]]]; vm_compute; intros Hb; [discriminate | right; reflexivity].
Defined.

(** A contact between colliders 3 and 4, for which nothing is registered. *)
Lemma dispatch_skips_missing_witness :
  Frame.onContact Scenario.context (Frame.mkContactEvent 3 4 true) Scenario.initial
  = (JS.Returned tt, Scenario.initial).
Proof.
  apply (proj1 (proj2 (proj2 (@dispatch_skips_missing Scenario.engine
                                Scenario.application Scenario.context
                                (Frame.mkContactEvent 3 4 true) Scenario.initial)))).
  vm_compute. reflexivity.
Defined.

Lemma Scenario_subscribed_reachable : Lifecycle.reachable Scenario.subscribed.
Proof.
  apply (Lifecycle.reachable_collider_subscribe
           (Some (Collider.mkCollider 2)) (Some (Context.Closure 2))
           (<[Context.uuid "rigidBody" 11 :=
                Context.mkListeners (Some (Context.Closure 11)) None]> ∅)).
  - apply (Lifecycle.reachable_body_subscribe
             (Some Scenario.falling) (Some (Context.Closure 11)) ∅).
    + apply Lifecycle.reachable_new.
    + reflexivity.
  - reflexivity.
Defined.

(** The end of the contact between colliders 1 and 2 of the scenario. *)
Lemma contact_end_never_delivered_witness :
  Frame.onContact Scenario.context (Frame.mkContactEvent 1 2 false) Scenario.initial
  = (JS.Returned tt, Scenario.initial).
Proof.
  apply (proj2 (@contact_end_never_delivered Scenario.engine Scenario.application)
           Scenario.context (Frame.mkContactEvent 1 2 false) Scenario.initial).
  - exact Scenario_subscribed_reachable.
  - reflexivity.
Defined.

(** A ball given both [quaternion = [0, 1, 0, 0]] and a rotation. *)
Lemma orientation_resolution_witness :
  exists d,
    Collider.colliderDesc Scenario.fromEuler
      (fun _ => Some (RAPIER.ColliderDesc_ball 1)) Scenario.turned
      Context.RigidBodyContext_default = Some d
    /\ RAPIER.rotation d = RAPIER.mkRotation 0 1 0 0.
Proof.
  destruct (proj1 (orientation_resolution Scenario.fromEuler
                     (SceneGraph.getWorldPosition [SceneGraph.scene])
                     (SceneGraph.getWorldQuaternion [SceneGraph.scene]))
              Scenario.turned (fun _ => Some (RAPIER.ColliderDesc_ball 1))
              Context.RigidBodyContext_default (RAPIER.ColliderDesc_ball 1) eq_refl)
    as (d & Hd & Hrot).
  exists d. split; [exact Hd | exact Hrot].
Defined.

(** C6 as stated fails for bodies.  A body placed directly in the scene with
    [quaternion = [0, 0, 0, -1]] and a rotation receives [(0, 0, 0, 1)]: the
    world quaternion is read back from the world matrix, which does not keep
    the sign.  A body with [quaternion = [0, 0, 0, 1]] and a rotation, placed
    in a group turned half a turn about [y], receives the group's
    [(0, 1, 0, 0)]. *)
Lemma body_orientation_counterexample :
  (forall setFromEuler,
      snd (Body.initialPose setFromEuler
             (SceneGraph.getWorldPosition [SceneGraph.scene])
             (SceneGraph.getWorldQuaternion [SceneGraph.scene])
             (Body.mkRigidBodyProps None
                (Some (THREE.Quaternion_arr 0 0 0 (-1)))
                (Some (THREE.Euler_arr 1 2 3 None)) Body.dynamic None))
      = THREE.mkQuaternion 0 0 0 1
      /\ THREE.mkQuaternion 0 0 0 1 <> THREE.mkQuaternion 0 0 0 (-1))
  /\ (forall setFromEuler,
      snd (Body.initialPose setFromEuler
             (SceneGraph.getWorldPosition [SceneGraph.scene; SceneGraph.halfTurn])
             (SceneGraph.getWorldQuaternion [SceneGraph.scene; SceneGraph.halfTurn])
             (Body.mkRigidBodyProps None
                (Some (THREE.Quaternion_arr 0 0 0 1))
                (Some (THREE.Euler_arr 1 2 3 None)) Body.dynamic None))
      = THREE.mkQuaternion 0 1 0 0
      /\ THREE.mkQuaternion 0 1 0 0 <> THREE.mkQuaternion 0 0 0 1).
Proof.
  split; intros setFromEuler; (split; [vm_compute; reflexivity | intros [=]]).
Qed.

(** * Further properties *)

(** ** Event keys and the event map *)

Section EventKeyFacts.
Import JS Context.

Lemma uuid_same_kind kind h1 h2 : uuid kind h1 = uuid kind h2 -> h1 = h2.
Proof.
  unfold uuid. intros Heq.
  apply (inj (String.app kind)) in Heq. apply (inj (String.app ":")) in Heq.
  exact (inj pretty _ _ Heq).
Qed.

Lemma uuid_kinds_differ h1 h2 : uuid "collider" h1 <> uuid "rigidBody" h2.
Proof. unfold uuid. simpl. discriminate. Qed.

(** X1. The keys of the event map tell bodies from colliders and handles
    from one another: two keys built for the kinds ["collider"] and
    ["rigidBody"] are equal only when both the kind and the handle are. *)
Theorem uuid_injective (kind1 kind2 : string) (h1 h2 : RAPIER.Handle) :
  kind1 ∈ ["collider"; "rigidBody"] ->
  kind2 ∈ ["collider"; "rigidBody"] ->
  uuid kind1 h1 = uuid kind2 h2 ->
  kind1 = kind2 /\ h1 = h2.
Proof.
  rewrite !elem_of_cons, !elem_of_nil.
  intros [->|[->|[]]] [->|[->|[]]] Heq.
  - split; [reflexivity | exact (uuid_same_kind _ _ _ Heq)].
  - destruct (uuid_kinds_differ _ _ Heq).
  - symmetry in Heq. destruct (uuid_kinds_differ _ _ Heq).
  - split; [reflexivity | exact (uuid_same_kind _ _ _ Heq)].
Qed.

(** X2. Subscribing a body stores its callback as the begin listener under
    the body's key and leaves every collider entry, and the entry of every
    other body, as it was; subscribing a collider does the same with the
    roles exchanged. *)
Theorem subscribe_isolated
  (rb : RAPIER.RigidBody) (c : Collider.Collider) (cb : CollideEventCallback)
  (events : gmap string Listeners) :
  (exists events',
      Body.subscribeEffect (Some rb) (Some cb) events = Returned events'
      /\ events' !! uuid "rigidBody" (RAPIER.handle rb) = Some (mkListeners (Some cb) None)
      /\ (forall h, events' !! uuid "collider" h = events !! uuid "collider" h)
      /\ (forall h, h <> RAPIER.handle rb ->
                    events' !! uuid "rigidBody" h = events !! uuid "rigidBody" h))
  /\ (exists events',
      Collider.subscribeEffect (Some c) (Some cb) events = Returned events'
      /\ events' !! uuid "collider" (Collider.handle c) = Some (mkListeners (Some cb) None)
      /\ (forall h, events' !! uuid "rigidBody" h = events !! uuid "rigidBody" h)
      /\ (forall h, h <> Collider.handle c ->
                    events' !! uuid "collider" h = events !! uuid "collider" h)).
Proof.
  split; (eexists; split; [reflexivity|]); (split; [apply lookup_insert_eq|]); split.
  - intros h. apply lookup_insert_ne. intros Heq. symmetry in Heq.
    exact (uuid_kinds_differ _ _ Heq).
  - intros h Hne. apply lookup_insert_ne. intros Heq.
    apply uuid_same_kind in Heq. congruence.
  - intros h. apply lookup_insert_ne. exact (uuid_kinds_differ _ _).
  - intros h Hne. apply lookup_insert_ne. intros Heq.
    apply uuid_same_kind in Heq. congruence.
Qed.

(** X3. The event effect does nothing without a created body or without an
    [onCollide]; when it does subscribe, running its cleanup afterwards gives
    back the map it started from, provided the body had no entry; and the
    cleanup only ever removes the body's own entry. *)
Theorem subscribe_cleanup_round_trip
  (rb : RAPIER.RigidBody) (cb : CollideEventCallback)
  (events : gmap string Listeners) :
  (forall onCollide, Body.subscribeEffect None onCollide events = Returned events)
  /\ (forall rigidBody, Body.subscribeEffect rigidBody None events = Returned events)
  /\ (events !! uuid "rigidBody" (RAPIER.handle rb) = None ->
      exists events',
        Body.subscribeEffect (Some rb) (Some cb) events = Returned events'
        /\ Body.subscribeCleanup rb events' = events)
  /\ Body.subscribeCleanup rb events !! uuid "rigidBody" (RAPIER.handle rb) = None
  /\ (forall k, k <> uuid "rigidBody" (RAPIER.handle rb) ->
                Body.subscribeCleanup rb events !! k = events !! k)
  /\ Body.subscribeCleanup rb (Body.subscribeCleanup rb events)
     = Body.subscribeCleanup rb events.
Proof.
  split; [intros []; reflexivity|]. split; [intros [?|]; reflexivity|].
  split; [|split; [|split]].
  - intros Hfree. eexists. split; [reflexivity|].
    unfold Body.subscribeCleanup. rewrite delete_insert_eq. apply delete_id. exact Hfree.
  - apply lookup_delete_eq.
  - intros k Hk. apply lookup_delete_ne. congruence.
  - unfold Body.subscribeCleanup. apply delete_id. apply lookup_delete_eq.
Qed.

(** X4. A re-render replaces the listener: the cleanup of the previous
    subscription followed by the effect with the new callback leaves exactly
    the new callback under the body's key, whatever was there, and the same
    number of entries as subscribing once. *)
Theorem resubscribe_replaces
  (rb : RAPIER.RigidBody) (old new : CollideEventCallback)
  (events : gmap string Listeners) :
  exists events1 events2,
    Body.subscribeEffect (Some rb) (Some old) events = Returned events1
    /\ Body.subscribeEffect (Some rb) (Some new) (Body.subscribeCleanup rb events1)
       = Returned events2
    /\ events2 !! uuid "rigidBody" (RAPIER.handle rb) = Some (mkListeners (Some new) None)
    /\ (forall k, k <> uuid "rigidBody" (RAPIER.handle rb) ->
                  events2 !! k = events !! k)
    /\ size events2 = size events1.
Proof.
  eexists _, _. split; [reflexivity|]. split; [reflexivity|].
  split; [apply lookup_insert_eq|]. split.
  - intros k Hk. unfold Body.subscribeCleanup.
    rewrite lookup_insert_ne, lookup_delete_ne, lookup_insert_ne by congruence.
    reflexivity.
  - unfold Body.subscribeCleanup. rewrite insert_delete_eq, insert_insert_eq.
    destruct (events !! uuid "rigidBody" (RAPIER.handle rb)) as [l|] eqn:Hl.
    + rewrite !map_size_insert_Some by eauto. reflexivity.
    + rewrite !map_size_insert_None by exact Hl. reflexivity.
Qed.

End EventKeyFacts.

(** ** The handle registries over mounts and unmounts *)

Section RegistryLifetimeFacts.
Import JS Context.

(** X5. The registering effect does nothing before the node or the body
    exists.  Once it ran, the handle looks up the node.  Its cleanup removes
    the handle's entry, whoever put it there: after a mount and its unmount
    the handle has no entry, the map is the original one when the handle was
    free, and unmounting a handle without an entry changes nothing. *)
Theorem register_cleanup_round_trip
  (o : Object3DRef) (rb : RAPIER.RigidBody) (bodies : gmap N nat) :
  (forall rigidBody, Body.registerEffect None rigidBody bodies = Returned bodies)
  /\ (forall object3d, Body.registerEffect object3d None bodies = Returned bodies)
  /\ (exists bodies',
        Body.registerEffect (Some o) (Some rb) bodies = Returned bodies'
        /\ bodies' !! RAPIER.handle rb = Some o
        /\ Body.registerCleanup rb bodies' !! RAPIER.handle rb = None
        /\ (forall h, h <> RAPIER.handle rb ->
                      Body.registerCleanup rb bodies' !! h = bodies !! h)
        /\ (bodies !! RAPIER.handle rb = None ->
            Body.registerCleanup rb bodies' = bodies))
  /\ (bodies !! RAPIER.handle rb = None -> Body.registerCleanup rb bodies = bodies).
Proof.
  split; [intros [?|]; reflexivity|]. split; [intros [?|]; reflexivity|]. split.
  - eexists. split; [reflexivity|]. unfold Body.registerCleanup.
    split; [apply lookup_insert_eq|]. split; [apply lookup_delete_eq|]. split.
    + intros h Hh. rewrite lookup_delete_ne, lookup_insert_ne by congruence. reflexivity.
    + intros Hfree. rewrite delete_insert_eq. apply delete_id. exact Hfree.
  - intros Hfree. apply delete_id. exact Hfree.
Qed.

Lemma run_lookup ops : forall (bodies : gmap N nat),
  exists bodies',
    Registry.run ops bodies = Returned bodies'
    /\ forall h, bodies' !! h = match Registry.latest h ops with
                                | Some r => r
                                | None => bodies !! h
                                end.
Proof.
  induction ops as [|op ops IH]; intros bodies.
  - exists bodies. split; [reflexivity|]. intros h. reflexivity.
  - cbn [Registry.run].
    assert (Happly : exists b1, Registry.apply op bodies = Returned b1
              /\ forall h, b1 !! h =
                   if bool_decide (Registry.op_handle op = h)
                   then match op with
                        | Registry.Mount _ o => Some o
                        | Registry.Unmount _ => None
                        end
                   else bodies !! h).
    { destruct op as [rb o|rb]; (eexists; split; [reflexivity|]); intros h;
        cbn [Registry.op_handle]; case_bool_decide as Hh.
      - subst h. apply lookup_insert_eq.
      - apply lookup_insert_ne. exact Hh.
      - subst h. apply lookup_delete_eq.
      - apply lookup_delete_ne. exact Hh. }
    destruct Happly as (b1 & -> & Hb1). cbn [bind].
    destruct (IH b1) as (bodies' & Hrun & Hlook).
    exists bodies'. split; [exact Hrun|]. intros h. rewrite Hlook.
    cbn [Registry.latest]. destruct (Registry.latest h ops); [reflexivity|].
    rewrite Hb1. case_bool_decide; reflexivity.
Qed.

(** X6. After any sequence of body mounts and unmounts the registry holds,
    for each handle, what the latest operation on that handle left: the node
    of the latest mount, nothing after an unmount, and the initial entry for
    a handle no operation named.  Started empty, it holds exactly the handles
    whose latest operation is a mount. *)
Theorem registry_tracks_latest (ops : list Registry.Op) (bodies : gmap N nat) :
  (exists bodies',
      Registry.run ops bodies = Returned bodies'
      /\ forall h, bodies' !! h = match Registry.latest h ops with
                                  | Some r => r
                                  | None => bodies !! h
                                  end)
  /\ (exists registry,
      Registry.run ops ∅ = Returned registry
      /\ forall h, h ∈ dom registry <->
                   exists o, Registry.latest h ops = Some (Some o)).
Proof.
  split; [apply run_lookup|].
  destruct (run_lookup ops ∅) as (registry & Hrun & Hlook).
  exists registry. split; [exact Hrun|]. intros h.
  rewrite elem_of_dom, Hlook.
  destruct (Registry.latest h ops) as [[o|]|].
  - split; eauto.
  - split; [intros [? [=]] | intros [? [=]]].
  - rewrite lookup_empty. split; [intros [? [=]] | intros [? [=]]].
Qed.

End RegistryLifetimeFacts.

(** ** The frame loop, phase by phase *)

Section FramePhaseFacts.
Import JS THREE Context Frame.
Context `{Engine} `{Application}.

(** The tick as its three phases: the state after the step, after the
    active-body pass, and the run of the drain. *)
Lemma tick_phases ctx s :
  let s1 := snd (world_step s) in
  let s2 := snd (forEach (activeRigidBodies (world s1)) (syncPose ctx) s1) in
  let r := drainEach (eventQueue s2) (onContact ctx) (logged ADrain s2) in
  tick ctx s =
  (Returned tt,
   {| world := world (snd r); eventQueue := []; scene := scene (snd r);
      trace := trace (snd r) |}).
Proof.
  cbv zeta.
  set (s1 := snd (world_step s)).
  assert (H1 : world_step s = (Returned tt, s1)).
  { subst s1. unfold world_step. destruct (step (world s) (eventQueue s)). reflexivity. }
  set (s2 := snd (forEach (activeRigidBodies (world s1)) (syncPose ctx) s1)).
  assert (H2 : forEach (activeRigidBodies (world s1)) (syncPose ctx) s1 = (Returned tt, s2)).
  { subst s2. destruct (forEach_syncPose ctx (activeRigidBodies (world s1)) s1) as (Hret & _).
    destruct (forEach (activeRigidBodies (world s1)) (syncPose ctx) s1) as [o s'].
    cbn [fst snd] in *. subst o. reflexivity. }
  cbv beta delta [tick forEachActiveRigidBody drainContactEvents seq_bind gets log].
  rewrite H1. cbv beta iota. rewrite H2. cbv beta iota. cbn [eventQueue].
  fold (logged ADrain s2).
  assert (Hret := drainEach_returns (eventQueue s2) (onContact ctx) (logged ADrain s2)).
  destruct (drainEach (eventQueue s2) (onContact ctx) (logged ADrain s2)) as [[[]|e] s4];
    [reflexivity | discriminate].
Qed.

Lemma world_step_scene s : scene (snd (world_step s)) = scene s.
Proof. unfold world_step. destruct (step (world s) (eventQueue s)). reflexivity. Qed.

Lemma world_step_world s :
  world (snd (world_step s)) = fst (step (world s) (eventQueue s)).
Proof. unfold world_step. destruct (step (world s) (eventQueue s)). reflexivity. Qed.

(** The scene after a tick is the scene after its active-body pass. *)
Lemma tick_scene ctx s :
  scene (snd (tick ctx s)) =
  scene (snd (forEach (activeRigidBodies (fst (step (world s) (eventQueue s))))
                (syncPose ctx) (snd (world_step s)))).
Proof.
  rewrite tick_phases. cbv zeta. rewrite world_step_world.
  set (s2 := snd (forEach _ (syncPose ctx) (snd (world_step s)))).
  destruct (drainEach_onContact ctx (eventQueue s2) (logged ADrain s2))
    as ((_ & _ & Hsc) & _).
  cbn [snd scene]. exact Hsc.
Qed.

Lemma forEach_app {A} (f : A -> M unit) l1 l2 s :
  fst (forEach l1 f s) = Returned tt ->
  forEach (l1 ++ l2) f s = forEach l2 f (snd (forEach l1 f s)).
Proof.
  revert s. induction l1 as [|a l1 IH]; intros s; [reflexivity|].
  cbn [forEach app]. unfold seq_bind.
  destruct (f a s) as [[[]|e] s1]; cbn [fst snd]; [apply IH | discriminate].
Qed.

(** The active-body pass neither adds nor removes scene nodes. *)
Lemma forEach_syncPose_dom ctx l s :
  dom (scene (snd (forEach l (syncPose ctx) s))) = dom (scene s).
Proof.
  revert s. induction l as [|rb l IH]; intros s; [reflexivity|].
  cbn [forEach]. unfold seq_bind. rewrite syncPose_run. rewrite IH.
  destruct (pose_target ctx rb); [|reflexivity].
  cbn [scene]. rewrite !dom_alter_L. reflexivity.
Qed.

(** The pass ends with the pose of the last body written to a node. *)
Lemma forEach_syncPose_last ctx l1 rb l2 s n :
  pose_target ctx rb = Some n ->
  (forall rb', In rb' l2 -> pose_target ctx rb' <> Some n) ->
  scene (snd (forEach (l1 ++ rb :: l2) (syncPose ctx) s)) !! n
  = (fun _ => mkObject3D (fst (body_pose rb)) (snd (body_pose rb))) <$> scene s !! n.
Proof.
  intros Ht Hlater.
  rewrite forEach_app by apply forEach_syncPose.
  set (s1 := snd (forEach l1 (syncPose ctx) s)).
  assert (Hdom : is_Some (scene s1 !! n) <-> is_Some (scene s !! n)).
  { rewrite <- !elem_of_dom. subst s1. rewrite forEach_syncPose_dom. reflexivity. }
  cbn [forEach]. unfold seq_bind. rewrite syncPose_run, Ht.
  destruct (forEach_syncPose ctx l2
              {| world := world s1; eventQueue := eventQueue s1;
                 scene := alter (fun o => mkObject3D (position o) (snd (body_pose rb))) n
                            (alter (fun o => mkObject3D (fst (body_pose rb)) (quaternion o))
                               n (scene s1));
                 trace := (trace s1 ++ [ASetPosition n (fst (body_pose rb))])
                            ++ [ASetQuaternion n (snd (body_pose rb))] |})
    as (_ & _ & _ & _ & Hsc).
  rewrite (Hsc n Hlater). cbn [scene]. rewrite !lookup_alter_eq.
  destruct (scene s1 !! n) as [o1|] eqn:Hn1, (scene s !! n) as [o0|] eqn:Hn0;
    cbn; try reflexivity.
  - destruct (proj1 Hdom (ex_intro _ _ eq_refl)) as [? [=]].
  - destruct (proj2 Hdom (ex_intro _ _ eq_refl)) as [? [=]].
Qed.

(** X7. After a tick, a scene node holds the pose of the last visited body
    that is registered for it and is neither asleep nor static: both its
    position and its quaternion are that body's translation and rotation. *)
Theorem pose_propagation_copies ctx s l1 rb l2 (n : Object3DRef) :
  activeRigidBodies (fst (step (world s) (eventQueue s))) = l1 ++ rb :: l2 ->
  bodies ctx !! RAPIER.handle rb = Some n ->
  RAPIER.isSleeping rb = false ->
  RAPIER.isStatic rb = false ->
  (forall rb', In rb' l2 -> bodies ctx !! RAPIER.handle rb' = Some n ->
               RAPIER.isSleeping rb' = true \/ RAPIER.isStatic rb' = true) ->
  scene (snd (tick ctx s)) !! n
  = (fun _ => mkObject3D (fst (body_pose rb)) (snd (body_pose rb))) <$> scene s !! n.
Proof.
  intros Hl Hb Hsl Hst Hlater. rewrite tick_scene, Hl.
  rewrite forEach_syncPose_last.
  - rewrite world_step_scene. reflexivity.
  - apply pose_target_Some. auto.
  - intros rb' Hin Ht. apply pose_target_Some in Ht as (Hb' & Hsl' & Hst').
    destruct (Hlater rb' Hin Hb'); congruence.
Qed.

(** X9. A tick in which the engine visits no body and reports no contact
    does nothing but the step and the drain: it returns, the scene is the
    same, and the world is the stepped one. *)
Theorem tick_idle ctx s :
  activeRigidBodies (fst (step (world s) (eventQueue s))) = [] ->
  snd (step (world s) (eventQueue s)) = [] ->
  tick ctx s =
  (Returned tt,
   {| world := fst (step (world s) (eventQueue s)); eventQueue := [];
      scene := scene s; trace := trace s ++ [AStep; ADrain] |}).
Proof.
  intros Hnone Hquiet. rewrite tick_phases. cbv zeta.
  rewrite world_step_world, Hnone. cbn [forEach ret snd].
  unfold world_step. destruct (step (world s) (eventQueue s)) as [w q].
  cbn [fst snd] in *. subst q. cbn. rewrite <- app_assoc. reflexivity.
Qed.

End FramePhaseFacts.

(** ** Dispatch *)

Section DispatchFacts.
Import JS THREE Context Frame.
Context `{Engine} `{Application}.

Lemma delivery_Some ctx begin kind registry h cb e :
  delivery ctx begin kind registry h = Some (cb, e) ->
  registry !! h = Some (target e)
  /\ exists l, events ctx !! uuid kind h = Some l
               /\ (if begin then onCollideBegin l else onCollideEnd l) = Some cb.
Proof.
  unfold delivery.
  destruct (registry !! h) as [node|]; [|discriminate].
  destruct (events ctx !! uuid kind h) as [l|]; [|discriminate].
  destruct (if begin then onCollideBegin l else onCollideEnd l) as [cb'|] eqn:Hcb;
    [|discriminate].
  intros [= <- <-]. split; [reflexivity|]. exists l. split; [reflexivity | exact Hcb].
Qed.

Lemma delivery_begin ctx kind registry h node l cb :
  registry !! h = Some node ->
  events ctx !! uuid kind h = Some l ->
  onCollideBegin l = Some cb ->
  delivery ctx true kind registry h = Some (cb, {| target := node |}).
Proof. intros Hr He Hcb. unfold delivery. rewrite Hr, He, Hcb. reflexivity. Qed.

(** When every callback returns, the run makes all the deliveries. *)
Lemma forEach_deliver_all l s :
  (forall d, In d l -> callbackEnd (fst d) (snd d) = None) ->
  forEach l deliver s =
  (Returned tt,
   {| world := world s; eventQueue := eventQueue s; scene := scene s;
      trace := trace s ++ map invocation l |}).
Proof.
  revert s. induction l as [|d l IH]; intros s Hall.
  - cbn. rewrite app_nil_r. destruct s; reflexivity.
  - rewrite forEach_deliver_cons, (Hall d (or_introl eq_refl)).
    rewrite IH by (intros d' Hd'; apply Hall; right; exact Hd').
    cbn. rewrite <- app_assoc. reflexivity.
Qed.

(** The run stops at the first callback that throws. *)
Lemma forEach_deliver_throw pre d post s e :
  (forall d', In d' pre -> callbackEnd (fst d') (snd d') = None) ->
  callbackEnd (fst d) (snd d) = Some e ->
  forEach (pre ++ d :: post) deliver s =
  (Raised e,
   {| world := world s; eventQueue := eventQueue s; scene := scene s;
      trace := trace s ++ map invocation (pre ++ [d]) |}).
Proof.
  revert s. induction pre as [|d' pre IH]; intros s Hpre Hd.
  - cbn [app]. rewrite forEach_deliver_cons, Hd. reflexivity.
  - cbn [app]. rewrite forEach_deliver_cons, (Hpre d' (or_introl eq_refl)).
    rewrite IH by (try exact Hd; intros d'' Hd''; apply Hpre; right; exact Hd'').
    cbn. rewrite <- app_assoc. reflexivity.
Qed.

(** Whatever happens, the invocations made are an initial part of the list. *)
Lemma forEach_deliver_prefix l s :
  exists k,
    trace (snd (forEach l deliver s)) = trace s ++ map invocation (take k l).
Proof.
  revert s. induction l as [|d l IH]; intros s.
  - exists 0%nat. cbn. rewrite app_nil_r. reflexivity.
  - rewrite forEach_deliver_cons.
    destruct (callbackEnd (fst d) (snd d)) as [e|].
    + exists 1%nat. reflexivity.
    + destruct (IH (logged (invocation d) s)) as (k & Hk).
      exists (S k). rewrite Hk. cbn. rewrite <- app_assoc. reflexivity.
Qed.

(** X10. A body's listener hears the contacts of its colliders: when a
    contact starts, the callback subscribed for the parent body of either
    collider is among the deliveries, with the body's node as target, whether
    or not the collider itself has a node or a listener; and when the
    callbacks return it is invoked. *)
Theorem body_listener_hears_colliders ctx ev s (h : RAPIER.Handle) node l cb :
  started ev = true ->
  h = handle1 ev \/ h = handle2 ev ->
  bodies ctx !! colliderParent (world s) h = Some node ->
  events ctx !! uuid "rigidBody" (colliderParent (world s) h) = Some l ->
  onCollideBegin l = Some cb ->
  In (cb, {| target := node |}) (deliveries ctx (world s) ev)
  /\ ((forall d, In d (deliveries ctx (world s) ev) ->
                 callbackEnd (fst d) (snd d) = None) ->
      fst (onContact ctx ev s) = Returned tt
      /\ In (AInvoke cb {| target := node |}) (trace (snd (onContact ctx ev s)))).
Proof.
  intros Hstart Hh Hnode Hl Hcb.
  assert (Hdel : delivery ctx true "rigidBody" (bodies ctx) (colliderParent (world s) h)
                 = Some (cb, {| target := node |})).
  { exact (delivery_begin ctx _ _ _ _ _ _ Hnode Hl Hcb). }
  assert (Hin : In (cb, {| target := node |}) (deliveries ctx (world s) ev)).
  { apply list_elem_of_In. unfold deliveries. rewrite Hstart.
    apply list_elem_of_omap. exists (Some (cb, {| target := node |})).
    split; [|reflexivity]. rewrite <- Hdel.
    destruct Hh as [-> | ->]; repeat constructor. }
  split; [exact Hin|]. intros Hret.
  rewrite onContact_deliveries, (forEach_deliver_all _ _ Hret). cbn [fst snd trace].
  split; [reflexivity|]. apply in_or_app. right.
  apply (in_map invocation) in Hin. exact Hin.
Qed.

(** X11. One contact event causes at most four invocations, made in the
    order of the event's deliveries; each of them calls a callback stored for
    the phase under the key of one of the two colliders or of one of their
    parent bodies, with the node registered for that very handle. *)
Theorem dispatch_targets_registered ctx ev s :
  (length (deliveries ctx (world s) ev) <= 4)%nat
  /\ (exists k,
        trace (snd (onContact ctx ev s))
        = trace s ++ map invocation (take k (deliveries ctx (world s) ev)))
  /\ forall cb e, In (cb, e) (deliveries ctx (world s) ev) ->
       exists kind registry h l,
         ((kind = "collider" /\ registry = colliders ctx
           /\ (h = handle1 ev \/ h = handle2 ev))
          \/ (kind = "rigidBody" /\ registry = bodies ctx
              /\ (h = colliderParent (world s) (handle1 ev)
                  \/ h = colliderParent (world s) (handle2 ev))))
         /\ registry !! h = Some (target e)
         /\ events ctx !! uuid kind h = Some l
         /\ (if started ev then onCollideBegin l else onCollideEnd l) = Some cb.
Proof.
  split; [|split].
  - unfold deliveries.
    destruct (delivery ctx (started ev) "collider" (colliders ctx) (handle1 ev)),
      (delivery ctx (started ev) "collider" (colliders ctx) (handle2 ev)),
      (delivery ctx (started ev) "rigidBody" (bodies ctx)
         (colliderParent (world s) (handle1 ev))),
      (delivery ctx (started ev) "rigidBody" (bodies ctx)
         (colliderParent (world s) (handle2 ev))); cbn; lia.
  - rewrite onContact_deliveries. apply forEach_deliver_prefix.
  - intros cb e Hin. apply list_elem_of_In in Hin. unfold deliveries in Hin.
    apply list_elem_of_omap in Hin as (d & Hd & Hsome). cbn in Hsome. subst d.
    rewrite !elem_of_cons, elem_of_nil in Hd.
    destruct Hd as [Hd|[Hd|[Hd|[Hd|[]]]]]; symmetry in Hd;
      apply delivery_Some in Hd as (Hreg & l & Hl & Hcb).
    + exists "collider", (colliders ctx), (handle1 ev), l. auto 10.
    + exists "collider", (colliders ctx), (handle2 ev), l. auto 10.
    + exists "rigidBody", (bodies ctx), (colliderParent (world s) (handle1 ev)), l. auto 10.
    + exists "rigidBody", (bodies ctx), (colliderParent (world s) (handle2 ev)), l. auto 10.
Qed.

(** X12. A callback that throws ends the handling of its contact event: the
    deliveries before it have been made, it has been invoked, the later
    deliveries of the event are not made, and the handler throws what the
    callback threw, leaving world, queue and scene as they were. *)
Theorem dispatch_stops_at_throw ctx ev s pre d post e :
  deliveries ctx (world s) ev = pre ++ d :: post ->
  (forall d', In d' pre -> callbackEnd (fst d') (snd d') = None) ->
  callbackEnd (fst d) (snd d) = Some e ->
  onContact ctx ev s =
  (Raised e,
   {| world := world s; eventQueue := eventQueue s; scene := scene s;
      trace := trace s ++ map invocation (pre ++ [d]) |}).
Proof.
  intros Hdel Hpre Hd. rewrite onContact_deliveries, Hdel.
  apply forEach_deliver_throw; assumption.
Qed.

End DispatchFacts.

(** ** Several frames *)

Section FramesFacts.
Import JS THREE Context Frame Frames.
Context `{Engine} `{Application}.

Lemma count_app p t1 t2 : count p (t1 ++ t2) = (count p t1 + count p t2)%nat.
Proof. unfold count. rewrite List.filter_app, length_app. reflexivity. Qed.

Lemma count_none (P : Action -> Prop) p t :
  Forall P t -> (forall a, P a -> p a = false) -> count p t = 0%nat.
Proof.
  intros Ht Hp. unfold count. induction Ht as [|a t Ha _ IH]; [reflexivity|].
  cbn. rewrite (Hp a Ha). exact IH.
Qed.

(** One tick logs one step and one drain. *)
Lemma tick_counts ctx s :
  count is_step (trace (snd (tick ctx s))) = S (count is_step (trace s))
  /\ count is_drain (trace (snd (tick ctx s))) = S (count is_drain (trace s)).
Proof.
  destruct (tick_run ctx s) as (writes & invs & -> & Hwr & Hinv & _).
  assert (Hw : forall p, (forall a, is_write a -> p a = false) -> count p writes = 0%nat)
    by (intros p; apply count_none; exact Hwr).
  assert (Hi : forall p, (forall a, is_invoke a -> p a = false) -> count p invs = 0%nat)
    by (intros p; apply count_none; exact Hinv).
  rewrite !count_app.
  rewrite (Hw is_step), (Hw is_drain), (Hi is_step), (Hi is_drain);
    try (intros [] Ha; try reflexivity; destruct Ha as [? [=]]);
    try (intros [] Ha; try reflexivity; destruct Ha).
  cbn. split; lia.
Qed.

(** X13. Over any number of frames the contact queue is drained once per
    step: the frames that ran logged as many drains as steps, at most one of
    each per frame.  When no callback throws all [n] frames run, and after
    the last one the queue is empty. *)
Theorem ticks_drain_once_per_step (n : nat) ctx s :
  (exists k,
      (k <= n)%nat
      /\ count is_step (trace (snd (ticks n ctx s))) = (count is_step (trace s) + k)%nat
      /\ count is_drain (trace (snd (ticks n ctx s))) = (count is_drain (trace s) + k)%nat
      /\ (fst (ticks n ctx s) = Returned tt -> k = n))
  /\ ((forall cb e, callbackEnd cb e = None) ->
      fst (ticks n ctx s) = Returned tt
      /\ ((0 < n)%nat -> eventQueue (snd (ticks n ctx s)) = [])).
Proof.
  split.
  - revert s. induction n as [|n IH]; intros s.
    + exists 0%nat. cbn. repeat split; lia.
    + cbn [ticks]. unfold seq_bind.
      destruct (tick_counts ctx s) as [Hs Hd].
      destruct (tick ctx s) as [[[]|e] s1]; cbn [fst snd] in *.
      * destruct (IH s1) as (k & Hk & Hks & Hkd & Hret).
        exists (S k). rewrite Hks, Hkd, Hs, Hd.
        repeat split; try lia. intros Hr. rewrite (Hret Hr). reflexivity.
      * exists 1%nat. rewrite Hs, Hd. repeat split; try lia. discriminate.
  - intros Hno. revert s. induction n as [|n IH]; intros s.
    + split; [reflexivity | lia].
    + cbn [ticks]. unfold seq_bind.
      destruct (tick_run ctx s) as (writes & invs & _ & _ & _ & _ & _ & _ & Hdone).
      destruct (Hdone Hno) as (Hret & Hq & _). clear Hdone.
      destruct (tick ctx s) as [[[]|e] s1]; cbn [fst snd] in *; [|discriminate].
      destruct (IH s1) as [Hret' Hq']. split; [exact Hret'|]. intros _.
      destruct n as [|n']; [exact Hq | apply Hq'; lia].
Qed.

End FramesFacts.

(** ** Descriptors *)

Section DescriptorFacts.
Import JS THREE Context Collider.
Variable setFromEuler : Euler -> Quaternion.

(** X14. [useCollider] builds a descriptor exactly when the shape callback
    returns one.  The descriptor keeps the callback's shape; its translation
    is the [position] prop, given as a tuple or as a vector, and the
    callback's own translation when the prop is absent. *)
Theorem colliderDesc_shape_translation cb (props : ColliderProps) ctx :
  (colliderDesc setFromEuler cb props ctx = None <-> cb tt = None)
  /\ forall d0, cb tt = Some d0 ->
       exists d,
         colliderDesc setFromEuler cb props ctx = Some d
         /\ RAPIER.shape d = RAPIER.shape d0
         /\ RAPIER.translation d =
            match position props with
            | Some (Vector3_arr x y z) => RAPIER.mkVector x y z
            | Some (Vector3_obj v) => RAPIER.mkVector (THREE.x v) (THREE.y v) (THREE.z v)
            | None => RAPIER.translation d0
            end.
Proof.
  split.
  - unfold colliderDesc. destruct (cb tt); split; intros Hn; try discriminate; reflexivity.
  - intros d0 Hcb. unfold colliderDesc. rewrite Hcb. eexists. split; [reflexivity|].
    destruct (present (onCollide props) || shouldCollidersListenForContactEvents ctx),
      (position props) as [[v|a b c]|], (friction props) as [f|],
      (restitution props) as [r|], (density props) as [v'|]; simpl;
      repeat match goal with |- context [truthy ?v] => destruct (truthy v) end;
      split; reflexivity.
Qed.

(** X15. A material option is stored in the descriptor whenever it is a
    number other than zero and [NaN], whatever the other props are; [NaN],
    like an absent option, leaves the constructor's value. *)
Theorem material_option_applied cb (props : ColliderProps) ctx d0 :
  cb tt = Some d0 ->
  exists d,
    colliderDesc setFromEuler cb props ctx = Some d
    /\ (forall f, friction props = Some f ->
          PrimFloat.eqb f 0 = false -> PrimFloat.is_nan f = false ->
          RAPIER.friction d = f)
    /\ (forall r, restitution props = Some r ->
          PrimFloat.eqb r 0 = false -> PrimFloat.is_nan r = false ->
          RAPIER.restitution d = r)
    /\ (forall v, density props = Some v ->
          PrimFloat.eqb v 0 = false -> PrimFloat.is_nan v = false ->
          RAPIER.density d = v)
    /\ (friction props = None \/ friction props = Some PrimFloat.nan ->
        RAPIER.friction d = RAPIER.friction d0)
    /\ (restitution props = None \/ restitution props = Some PrimFloat.nan ->
        RAPIER.restitution d = RAPIER.restitution d0)
    /\ (density props = None \/ density props = Some PrimFloat.nan ->
        RAPIER.density d = RAPIER.density d0).
Proof.
  intros Hcb.
  destruct (colliderDesc_material setFromEuler cb props ctx d0 Hcb)
    as (d & Hd & Hf & Hr & Hv).
  exists d. split; [exact Hd|]. rewrite Hf, Hr, Hv. unfold guarded, truthy.
  repeat split.
  - intros f -> H0 Hn. rewrite H0, Hn. reflexivity.
  - intros r -> H0 Hn. rewrite H0, Hn. reflexivity.
  - intros v -> H0 Hn. rewrite H0, Hn. reflexivity.
  - intros [-> | ->]; reflexivity.
  - intros [-> | ->]; reflexivity.
  - intros [-> | ->]; reflexivity.
Qed.

End DescriptorFacts.

Section BodyDescFacts.
Import JS BodyDesc.

(** X16. The body descriptor is built for exactly four values of [type],
    each selecting its own constructor; any other string makes the component
    throw an error that names the string. *)
Theorem rigidBodyDesc_supported (type : string) :
  (returns (rigidBodyDesc type) <->
   type ∈ ["dynamic"; "static"; "kinematic-velocity-based"; "kinematic-position-based"])
  /\ ((type ∉ ["dynamic"; "static"; "kinematic-velocity-based";
               "kinematic-position-based"]) ->
      rigidBodyDesc type
      = Raised (Error ("Unsupported RigidBody.type: " +:+ quote +:+ type +:+ quote)))
  /\ (forall type' d,
        rigidBodyDesc type = Returned d -> rigidBodyDesc type' = Returned d ->
        type = type').
Proof.
  assert (Hcases :
    (type = "dynamic" /\ rigidBodyDesc type = Returned newDynamic)
    \/ (type = "static" /\ rigidBodyDesc type = Returned newStatic)
    \/ (type = "kinematic-velocity-based"
        /\ rigidBodyDesc type = Returned newKinematicVelocityBased)
    \/ (type = "kinematic-position-based"
        /\ rigidBodyDesc type = Returned newKinematicPositionBased)
    \/ ((type ∉ ["dynamic"; "static"; "kinematic-velocity-based";
                 "kinematic-position-based"])
        /\ rigidBodyDesc type
           = Raised (Error ("Unsupported RigidBody.type: " +:+ quote +:+ type +:+ quote)))).
  { unfold rigidBodyDesc. repeat case_bool_decide; subst; auto 10.
    right. right. right. right. split; [|reflexivity].
    rewrite !elem_of_cons, elem_of_nil. tauto. }
  split; [|split].
  - split.
    + intros [d Hd].
      destruct Hcases as [[-> _]|[[-> _]|[[-> _]|[[-> _]|[_ Hr]]]]];
        rewrite ?elem_of_cons; auto 10. congruence.
    + intros Hin.
      destruct Hcases as [[_ Hr]|[[_ Hr]|[[_ Hr]|[[_ Hr]|[Hout _]]]]];
        try (eexists; exact Hr). contradiction.
  - intros Hout.
    destruct Hcases as [[-> _]|[[-> _]|[[-> _]|[[-> _]|[_ Hr]]]]]; try exact Hr;
      exfalso; apply Hout; rewrite !elem_of_cons; auto 10.
  - intros type' d Hd Hd'. revert Hd'. unfold rigidBodyDesc at 1.
    destruct Hcases as [[-> Hr]|[[-> Hr]|[[-> Hr]|[[-> Hr]|[_ Hr]]]]];
      rewrite Hr in Hd; try discriminate; injection Hd as <-;
      repeat case_bool_decide; subst; try discriminate; reflexivity.
Qed.

End BodyDescFacts.

(** ** The character's state machine *)


Section CharacterFacts.
Import JS Character.

(** One transition from a configured state. *)
Lemma transition_known st e :
  known st ->
  exists st',
    transition st e = Returned st'
    /\ known st'
    /\ (e = "WALK" -> value st' = "walk")
    /\ (value st' = "idle" <-> value st = "idle" /\ e <> "WALK")
    /\ (changed st' = true <-> value st' <> value st).
Proof.
  unfold known. rewrite !elem_of_cons, elem_of_nil.
  destruct st as [v c]. cbn [value].
  assert (Hidle : get "idle" states = Some [("WALK", "walk")]) by reflexivity.
  assert (Hwalk : get "walk" states = Some [("RUN", "run")]) by reflexivity.
  assert (Hrun : get "run" states = Some [("WALK", "walk")]) by reflexivity.
  intros [->|[->|[->|[]]]]; unfold transition; cbn [value];
    rewrite ?Hidle, ?Hwalk, ?Hrun; cbn [get];
    case_bool_decide as He; subst; (eexists; split; [reflexivity|]);
    cbn [value changed]; rewrite ?elem_of_cons.
  all: split; [auto|].
  all: split; [intros; congruence|].
  all: split;
    [split;
       [intros Hv; first [discriminate Hv | split; [reflexivity | congruence]]
       |intros [Hv Hn]; first [discriminate Hv | reflexivity | congruence]]
    |].
  all: try case_bool_decide; split; intros; first [discriminate | congruence | reflexivity].
Qed.

Lemma transitions_known events : forall st,
  known st ->
  exists st',
    transitions st events = Returned st'
    /\ known st'
    /\ (value st' = "idle" <-> value st = "idle" /\ "WALK" ∉ events).
Proof.
  induction events as [|e events IH]; intros st Hst.
  - exists st. split; [reflexivity|]. split; [exact Hst|].
    rewrite elem_of_nil. tauto.
  - destruct (transition_known st e Hst) as (st1 & Hstep & Hk1 & _ & Hidle & _).
    destruct (IH st1 Hk1) as (st' & Hrun & Hk' & Hidle').
    exists st'. cbn [transitions]. rewrite Hstep. cbn [bind].
    split; [exact Hrun|]. split; [exact Hk'|].
    rewrite Hidle', Hidle, elem_of_cons. split.
    + intros [[Hv He] Hn]. split; [exact Hv|]. intros [Heq|Hin]; [congruence | tauto].
    + intros [Hv Hn]. repeat split; [exact Hv | |]; intros ?; apply Hn; auto.
Qed.

Lemma transitions_app events1 events2 st st1 :
  transitions st events1 = Returned st1 ->
  transitions st (events1 ++ events2) = transitions st1 events2.
Proof.
  revert st. induction events1 as [|e events1 IH]; intros st; cbn [transitions app].
  - intros [= ->]. reflexivity.
  - destruct (transition st e) as [st'|err]; cbn [bind]; [apply IH | discriminate].
Qed.

Lemma initialState_known : known initialState.
Proof. unfold known, initialState, initial. cbn. rewrite elem_of_cons. auto. Qed.

(** X17. Whatever events it is sent, the character machine never fails and
    is always in one of its three states; and a [WALK] event always leaves
    it walking, whatever came before. *)
Theorem character_walks (events : list string) :
  (exists st, transitions initialState events = Returned st /\ known st)
  /\ (exists st,
        transitions initialState (events ++ ["WALK"]) = Returned st
        /\ value st = "walk").
Proof.
  destruct (transitions_known events initialState initialState_known)
    as (st & Hrun & Hk & _).
  split; [exists st; split; assumption|].
  destruct (transition_known st "WALK" Hk) as (st' & Hstep & _ & Hwalk & _).
  exists st'. rewrite (transitions_app _ _ _ _ Hrun). cbn [transitions].
  rewrite Hstep. split; [reflexivity | exact (Hwalk eq_refl)].
Qed.

(** X18. The character machine is idle exactly as long as it has received no
    [WALK] event: once it has left the idle state it never returns to it. *)
Theorem character_idle_until_walk (events : list string) :
  exists st,
    transitions initialState events = Returned st
    /\ (value st = "idle" <-> "WALK" ∉ events).
Proof.
  destruct (transitions_known events initialState initialState_known)
    as (st & Hrun & _ & Hidle).
  exists st. split; [exact Hrun|]. rewrite Hidle. cbn. tauto.
Qed.

End CharacterFacts.

(** ** The heightfield mesh, vertex by vertex *)

Section HeightfieldMeshFacts.
Import JS Heightfield.

(** What a returned mesh is. *)
Lemma geometryFromHeightfield_Returned R C heights scale g :
  geometryFromHeightfield R C heights scale = Returned g ->
  g = {| vertices := Float32Array (grid_vertices R C heights scale);
         indices := grid_triangles R C |}
  /\ (3 * ((Z.of_nat R + 1) * (Z.of_nat C + 1)) <= MAX_ARRAY_LENGTH)%Z
  /\ (6 * (Z.of_nat R * Z.of_nat C) <= MAX_ARRAY_LENGTH)%Z.
Proof.
  rewrite geometryFromHeightfield_unfold.
  destruct (push [] (grid_vertices R C heights scale)) as [vs|e] eqn:Hvs;
    cbn [bind]; [|discriminate].
  destruct (push [] (grid_triangles R C)) as [ixs|e] eqn:His; cbn [bind]; [|discriminate].
  intros [= <-].
  apply push_Returned in Hvs as [-> Hfv]. apply push_Returned in His as [-> Hfi].
  rewrite !app_nil_l in *. unfold fits in Hfv, Hfi.
  rewrite length_grid_vertices in Hfv. rewrite length_grid_triangles in Hfi.
  assert (Hid : Uint32Array (grid_triangles R C) = grid_triangles R C).
  { apply Uint32Array_id. intros k Hk. apply grid_triangles_bound in Hk.
    unfold MAX_ARRAY_LENGTH in Hfv. lia. }
  rewrite Hid. split; [reflexivity|]. split; lia.
Qed.

(** X20. In a returned mesh every index addresses a vertex that is there:
    it is non-negative and its three coordinates lie within the vertex
    array.  A grid without rows or without columns has no triangle at all,
    yet still its [(R + 1) * (C + 1)] vertices. *)
Theorem geometryFromHeightfield_indices_valid
  (R C : nat) (heights : list number) (scale : RAPIER.Vector) g :
  geometryFromHeightfield R C heights scale = Returned g ->
  (forall k, In k (indices g) ->
             (0 <= k)%Z /\ (3 * k + 2 < Z.of_nat (length (vertices g)))%Z)
  /\ (R = 0%nat \/ C = 0%nat ->
      indices g = [] /\ length (vertices g) = (3 * ((R + 1) * (C + 1)))%nat).
Proof.
  intros Hg. apply geometryFromHeightfield_Returned in Hg as (-> & _ & _).
  cbn [indices vertices]. unfold Float32Array. rewrite length_map, length_grid_vertices.
  split.
  - intros k Hk. apply grid_triangles_bound in Hk. lia.
  - intros Hdeg. split; [|reflexivity]. unfold grid_triangles.
    destruct Hdeg as [-> | ->]; [|reflexivity].
    cbn [seq flat_map]. induction (seq 0 C) as [|j l IH]; [reflexivity | exact IH].
Qed.

Lemma lookup_flat_map_block {A B} (f : A -> list B) (c : nat) (l : list A) :
  (forall a, length (f a) = c) ->
  forall k a r, l !! k = Some a -> (r < c)%nat ->
                flat_map f l !! (k * c + r)%nat = f a !! r.
Proof.
  intros Hc. induction l as [|a0 l IH]; intros k a r Hk Hr; [discriminate|].
  cbn [flat_map]. destruct k as [|k].
  - cbn in Hk. injection Hk as ->. cbn [Nat.mul Nat.add].
    apply lookup_app_l. rewrite Hc. exact Hr.
  - cbn in Hk. rewrite lookup_app_r by (rewrite Hc; lia).
    rewrite Hc. replace (S k * c + r - c)%nat with (k * c + r)%nat by lia.
    exact (IH k a r Hk Hr).
Qed.

Lemma lookup_map {A B} (f : A -> B) (l : list A) (i : nat) :
  map f l !! i = f <$> l !! i.
Proof.
  revert i. induction l as [|a l IH]; intros [|i]; cbn; try reflexivity. apply IH.
Qed.

(** The coordinates pushed for grid point [(i, j)] sit at vertex number
    [j * (R + 1) + i]. *)
Lemma grid_vertices_lookup R C heights scale i j r :
  (i <= R)%nat -> (j <= C)%nat -> (r < 3)%nat ->
  grid_vertices R C heights scale !! (3 * (j * (R + 1) + i) + r)%nat
  = vertex R C heights scale i j !! r.
Proof.
  intros Hi Hj Hr. unfold grid_vertices.
  replace (3 * (j * (R + 1) + i) + r)%nat with (j * (S R * 3) + (i * 3 + r))%nat by lia.
  rewrite (lookup_flat_map_block _ (S R * 3) _) with (a := j).
  - apply (lookup_flat_map_block (fun i' => vertex R C heights scale i' j) 3);
      [reflexivity | | exact Hr].
    rewrite lookup_seq_lt by lia. reflexivity.
  - intros j'. rewrite (length_flat_map_const _ _ 3) by reflexivity.
    rewrite length_seq. reflexivity.
  - rewrite lookup_seq_lt by lia. reflexivity.
  - lia.
Qed.

(** X21. In a returned mesh, vertex number [k = j * (R + 1) + i] belongs to
    grid point [(i, j)]: its [y] is the binary32 rounding of sample [k] of
    the height array times [scale.y], its [x] and [z] those of the column
    and row formulas.  With a height array of the full length every vertex
    reads a sample that exists. *)
Theorem geometryFromHeightfield_vertex
  (R C : nat) (heights : list number) (scale : RAPIER.Vector) g (i j : nat) :
  geometryFromHeightfield R C heights scale = Returned g ->
  (i <= R)%nat -> (j <= C)%nat ->
  vertices g !! (3 * (j * (R + 1) + i))%nat
    = Some (fround ((num j * (1 / num R) - 0.5) * RAPIER.x scale)%float)
  /\ vertices g !! (3 * (j * (R + 1) + i) + 1)%nat
    = Some (fround (index heights (j * (R + 1) + i) * RAPIER.y scale)%float)
  /\ vertices g !! (3 * (j * (R + 1) + i) + 2)%nat
    = Some (fround ((num i * (1 / num C) - 0.5) * RAPIER.z scale)%float)
  /\ (length heights = ((R + 1) * (C + 1))%nat ->
      exists sample,
        heights !! (j * (R + 1) + i)%nat = Some sample
        /\ vertices g !! (3 * (j * (R + 1) + i) + 1)%nat
           = Some (fround (sample * RAPIER.y scale)%float)).
Proof.
  intros Hg Hi Hj. apply geometryFromHeightfield_Returned in Hg as (-> & _ & _).
  cbn [vertices]. unfold Float32Array.
  assert (H0 := grid_vertices_lookup R C heights scale i j 0 Hi Hj ltac:(lia)).
  assert (H1 := grid_vertices_lookup R C heights scale i j 1 Hi Hj ltac:(lia)).
  assert (H2 := grid_vertices_lookup R C heights scale i j 2 Hi Hj ltac:(lia)).
  rewrite Nat.add_0_r in H0.
  rewrite !lookup_map, H0, H1, H2. cbn.
  split; [reflexivity|]. split; [reflexivity|]. split; [reflexivity|].
  intros Hlen.
  destruct (heights !! (j * (R + 1) + i)%nat) as [sample|] eqn:Hs.
  - exists sample. split; [reflexivity|]. unfold index. rewrite Hs. reflexivity.
  - apply lookup_ge_None in Hs. nia.
Qed.

(** X22. In a square grid ([C = R]) the corner indices of the cell in row
    [i] and column [j] address the four vertices that span the cell between
    the [x] of columns [i], [i + 1] and the [z] of rows [j], [j + 1]. *)
Theorem geometryFromHeightfield_square_cell
  (n : nat) (heights : list number) (scale : RAPIER.Vector) g (i j : nat) :
  geometryFromHeightfield n n heights scale = Returned g ->
  (i < n)%nat -> (j < n)%nat ->
  let X c := fround ((num c * (1 / num n) - 0.5) * RAPIER.x scale)%float in
  let Z r := fround ((num r * (1 / num n) - 0.5) * RAPIER.z scale)%float in
  let i1 := (i * (n + 1) + j)%nat in
  let i2 := (i * (n + 1) + (j + 1))%nat in
  let i3 := ((i + 1) * (n + 1) + j)%nat in
  let i4 := ((i + 1) * (n + 1) + (j + 1))%nat in
  cell_triangles n i j = map Z.of_nat [i1; i3; i2; i3; i4; i2]
  /\ (vertices g !! (3 * i1)%nat = Some (X i)
      /\ vertices g !! (3 * i1 + 2)%nat = Some (Z j))
  /\ (vertices g !! (3 * i2)%nat = Some (X i)
      /\ vertices g !! (3 * i2 + 2)%nat = Some (Z (j + 1)%nat))
  /\ (vertices g !! (3 * i3)%nat = Some (X (i + 1)%nat)
      /\ vertices g !! (3 * i3 + 2)%nat = Some (Z j))
  /\ (vertices g !! (3 * i4)%nat = Some (X (i + 1)%nat)
      /\ vertices g !! (3 * i4 + 2)%nat = Some (Z (j + 1)%nat)).
Proof.
  intros Hg Hi Hj. cbv zeta.
  apply geometryFromHeightfield_Returned in Hg as (-> & _ & _).
  cbn [vertices]. unfold Float32Array.
  assert (Hcorner : forall a b, (a <= n)%nat -> (b <= n)%nat ->
    map fround (grid_vertices n n heights scale) !! (3 * (a * (n + 1) + b))%nat
      = Some (fround ((num a * (1 / num n) - 0.5) * RAPIER.x scale)%float)
    /\ map fround (grid_vertices n n heights scale) !! (3 * (a * (n + 1) + b) + 2)%nat
      = Some (fround ((num b * (1 / num n) - 0.5) * RAPIER.z scale)%float)).
  { intros a b Ha Hb.
    assert (H0 := grid_vertices_lookup n n heights scale b a 0 Hb Ha ltac:(lia)).
    assert (H2 := grid_vertices_lookup n n heights scale b a 2 Hb Ha ltac:(lia)).
    rewrite Nat.add_0_r in H0. rewrite !lookup_map, H0, H2. split; reflexivity. }
  split.
  - unfold cell_triangles. cbn [map app]. repeat f_equal; lia.
  - repeat split; apply Hcorner; lia.
Qed.

End HeightfieldMeshFacts.

(** ** Concrete runs of the further properties *)

(** Two keys for collider 5. *)
Lemma uuid_injective_witness :
  "collider" = "collider" /\ 5%N = 5%N.
Proof.
  apply (uuid_injective "collider" "collider" 5 5).
  - rewrite elem_of_cons. left. reflexivity.
  - rewrite elem_of_cons. left. reflexivity.
  - reflexivity.
Defined.

(** Body 11 subscribes into the scenario's map: body 12 is not concerned. *)
Lemma subscribe_isolated_witness :
  exists events',
    Body.subscribeEffect (Some Scenario.falling) (Some (Context.Closure 7))
      Scenario.subscribed = JS.Returned events'
    /\ events' !! Context.uuid "rigidBody" 12 = Scenario.subscribed !! Context.uuid "rigidBody" 12.
Proof.
  destruct (proj1 (subscribe_isolated Scenario.falling (Collider.mkCollider 1)
                     (Context.Closure 7) Scenario.subscribed))
    as (events' & Hret & _ & _ & Hother).
  exists events'. split; [exact Hret|]. apply Hother. discriminate.
Defined.

(** Body 12 subscribes into the scenario's map, where it has no entry, and
    unsubscribes. *)
Lemma subscribe_cleanup_round_trip_witness :
  exists events',
    Body.subscribeEffect (Some Scenario.ground) (Some (Context.Closure 7))
      Scenario.subscribed = JS.Returned events'
    /\ Body.subscribeCleanup Scenario.ground events' = Scenario.subscribed.
Proof.
  apply (proj1 (proj2 (proj2 (subscribe_cleanup_round_trip Scenario.ground
                                (Context.Closure 7) Scenario.subscribed)))).
  vm_compute. reflexivity.
Defined.

(** Body 11 renders again with a new callback: collider 2 keeps its entry. *)
Lemma resubscribe_replaces_witness :
  exists events1 events2,
    Body.subscribeEffect (Some Scenario.falling) (Some (Context.Closure 7)) ∅
      = JS.Returned events1
    /\ Body.subscribeEffect (Some Scenario.falling) (Some (Context.Closure 8))
         (Body.subscribeCleanup Scenario.falling events1) = JS.Returned events2
    /\ events2 !! Context.uuid "collider" 2 = (∅ : gmap string Context.Listeners) !! Context.uuid "collider" 2.
Proof.
  destruct (resubscribe_replaces Scenario.falling (Context.Closure 7) (Context.Closure 8) ∅)
    as (events1 & events2 & H1 & H2 & _ & Hother & _).
  exists events1, events2. split; [exact H1|]. split; [exact H2|].
  apply Hother. discriminate.
Defined.

(** Body 13, not registered in the scenario, mounts on node 103 and unmounts. *)
Lemma register_cleanup_round_trip_witness :
  exists bodies',
    Body.registerEffect (Some 103%nat)
      (Some (RAPIER.mkRigidBody 13 false false (RAPIER.mkVector 0 0 0)
               (RAPIER.mkRotation 0 0 0 1)))
      (Context.bodies Scenario.context) = JS.Returned bodies'
    /\ Body.registerCleanup
         (RAPIER.mkRigidBody 13 false false (RAPIER.mkVector 0 0 0)
            (RAPIER.mkRotation 0 0 0 1)) bodies'
       = Context.bodies Scenario.context.
Proof.
  destruct (proj1 (proj2 (proj2 (register_cleanup_round_trip 103%nat
              (RAPIER.mkRigidBody 13 false false (RAPIER.mkVector 0 0 0)
                 (RAPIER.mkRotation 0 0 0 1))
              (Context.bodies Scenario.context)))))
    as (bodies' & Hret & _ & _ & _ & Hback).
  exists bodies'. split; [exact Hret|]. apply Hback. vm_compute. reflexivity.
Defined.

(** The scenario's tick: node 101 ends with the pose of body 11. *)
Lemma pose_propagation_copies_witness :
  Frame.scene (snd (Frame.tick Scenario.context Scenario.initial)) !! 101%nat
  = Some (THREE.mkObject3D (THREE.mkVector3 0 (-1) 0) (THREE.mkQuaternion 0 0 0 1)).
Proof.
  rewrite (@pose_propagation_copies Scenario.engine Scenario.application
             Scenario.context Scenario.initial [] Scenario.falling [Scenario.ground]
             101%nat).
  - reflexivity.
  - reflexivity.
  - reflexivity.
  - reflexivity.
  - reflexivity.
  - intros rb' [<-|[]] Hb. vm_compute in Hb. discriminate.
Defined.

(** A frame of the engine at rest. *)
Lemma tick_idle_witness :
  @Frame.tick Quiet.engine Scenario.application Scenario.context Quiet.initial
  = (JS.Returned tt,
     @Frame.mkState Quiet.engine tt [] Scenario.nodes [Frame.AStep; Frame.ADrain]).
Proof.
  apply (@tick_idle Quiet.engine Scenario.application Scenario.context Quiet.initial);
    reflexivity.
Defined.

(** The started contact of the scenario: collider 1 has no listener, its
    body 11 has one. *)
Lemma body_listener_hears_colliders_witness :
  In (Context.Closure 11, Context.mkCollideEvent 101)
     (Frame.deliveries Scenario.context tt (Frame.mkContactEvent 1 2 true)).
Proof.
  apply (proj1 (@body_listener_hears_colliders Scenario.engine Scenario.application
                  Scenario.context (Frame.mkContactEvent 1 2 true) Scenario.initial
                  1%N 101%nat (Context.mkListeners (Some (Context.Closure 11)) None)
                  (Context.Closure 11)
                  eq_refl (or_introl eq_refl) eq_refl eq_refl eq_refl)).
Defined.

(** The delivery to collider 2 in the scenario comes from its own entries. *)
Lemma dispatch_targets_registered_witness :
  exists kind (registry : gmap N nat) h l,
    registry !! h = Some 202%nat
    /\ Context.events Scenario.context !! Context.uuid kind h = Some l
    /\ Context.onCollideBegin l = Some (Context.Closure 2).
Proof.
  destruct (proj2 (proj2 (@dispatch_targets_registered Scenario.engine
                            Scenario.application Scenario.context
                            (Frame.mkContactEvent 1 2 true) Scenario.initial))
              (Context.Closure 2) (Context.mkCollideEvent 202))
    as (kind & registry & h & l & _ & Hreg & Hl & Hcb).
  - vm_compute. left. reflexivity.
  - exists kind, registry, h, l. split; [exact Hreg|]. split; [exact Hl | exact Hcb].
Defined.

(** The started contact of the scenario, when collider 2's callback throws:
    the body's callback is not reached. *)
Lemma dispatch_stops_at_throw_witness :
  @Frame.onContact Scenario.engine Faulty.application Scenario.context
    (Frame.mkContactEvent 1 2 true) Scenario.initial
  = (JS.Raised (JS.Error "listener failed"),
     Frame.mkState tt [] Scenario.nodes
       [Frame.AInvoke (Context.Closure 2) (Context.mkCollideEvent 202)]).
Proof.
  apply (@dispatch_stops_at_throw Scenario.engine Faulty.application Scenario.context
           (Frame.mkContactEvent 1 2 true) Scenario.initial []
           (Context.Closure 2, Context.mkCollideEvent 202)
           [(Context.Closure 11, Context.mkCollideEvent 101)]).
  - vm_compute. reflexivity.
  - intros d' [].
  - reflexivity.
Defined.

(** Two frames of the scenario. *)
Lemma ticks_drain_once_per_step_witness :
  fst (Frames.ticks 2 Scenario.context Scenario.initial) = JS.Returned tt
  /\ Frame.eventQueue (snd (Frames.ticks 2 Scenario.context Scenario.initial)) = [].
Proof.
  destruct (proj2 (@ticks_drain_once_per_step Scenario.engine Scenario.application 2
                     Scenario.context Scenario.initial)) as [Hret Hq].
  - intros cb e. reflexivity.
  - split; [exact Hret|]. apply Hq. lia.
Defined.

(** A ball placed at [(1, 2, 3)]. *)
Lemma colliderDesc_shape_translation_witness :
  exists d,
    Collider.colliderDesc Scenario.fromEuler (fun _ => Some (RAPIER.ColliderDesc_ball 1))
      (Collider.mkColliderProps (Some (THREE.Vector3_arr 1 2 3)) None None None None None None)
      Context.RigidBodyContext_default = Some d
    /\ RAPIER.shape d = RAPIER.Ball 1
    /\ RAPIER.translation d = RAPIER.mkVector 1 2 3.
Proof.
  apply (proj2 (colliderDesc_shape_translation Scenario.fromEuler
                  (fun _ => Some (RAPIER.ColliderDesc_ball 1))
                  (Collider.mkColliderProps (Some (THREE.Vector3_arr 1 2 3))
                     None None None None None None)
                  Context.RigidBodyContext_default) (RAPIER.ColliderDesc_ball 1)).
  reflexivity.
Defined.

(** A ball with friction [0.25]. *)
Lemma material_option_applied_witness :
  exists d,
    Collider.colliderDesc Scenario.fromEuler (fun _ => Some (RAPIER.ColliderDesc_ball 1))
      (Collider.mkColliderProps None None None (Some 0.25%float) None None None)
      Context.RigidBodyContext_default = Some d
    /\ RAPIER.friction d = 0.25%float.
Proof.
  destruct (material_option_applied Scenario.fromEuler
              (fun _ => Some (RAPIER.ColliderDesc_ball 1))
              (Collider.mkColliderProps None None None (Some 0.25%float) None None None)
              Context.RigidBodyContext_default (RAPIER.ColliderDesc_ball 1) eq_refl)
    as (d & Hd & Hf & _).
  exists d. split; [exact Hd|]. apply Hf; reflexivity.
Defined.

(** The engine's own name for a static body is not a supported type. *)
Lemma rigidBodyDesc_supported_witness :
  BodyDesc.rigidBodyDesc "fixed"
  = JS.Raised (JS.Error ("Unsupported RigidBody.type: "
                           +:+ BodyDesc.quote +:+ "fixed" +:+ BodyDesc.quote)).
Proof.
  apply (proj1 (proj2 (rigidBodyDesc_supported "fixed"))).
  rewrite !elem_of_cons, elem_of_nil. intros [H|[H|[H|[H|[]]]]]; discriminate H.
Defined.

(** The unit cell: index 3 addresses the last of its four vertices. *)
Lemma geometryFromHeightfield_indices_valid_witness :
  (0 <= 3)%Z /\ (3 * 3 + 2 < 12)%Z.
Proof.
  apply (proj1 (geometryFromHeightfield_indices_valid 1 1 [0; 0; 0; 0]%float
                  (RAPIER.mkVector 2 1 2)
                  (Heightfield.mkGeometry
                     [-1; 0; -1; -1; 0; 1; 1; 0; -1; 1; 0; 1]%float
                     [0; 2; 1; 2; 3; 1]%Z)
                  ltac:(vm_compute; reflexivity)) 3%Z).
  cbn. do 4 right. left. reflexivity.
Defined.

(** The unit cell with heights [1, 2, 3, 4]: vertex 3 carries sample 3. *)
Lemma geometryFromHeightfield_vertex_witness :
  exists g,
    Heightfield.geometryFromHeightfield 1 1 [1; 2; 3; 4]%float (RAPIER.mkVector 2 1 2)
    = JS.Returned g
    /\ Heightfield.vertices g !! 10%nat = Some 4%float.
Proof.
  eexists. split; [vm_compute; reflexivity|].
  destruct (geometryFromHeightfield_vertex 1 1 [1; 2; 3; 4]%float (RAPIER.mkVector 2 1 2)
              _ 1 1 ltac:(vm_compute; reflexivity) ltac:(lia) ltac:(lia))
    as (_ & Hy & _).
  exact Hy.
Defined.

(** The unit cell is a square grid: its first corner is the vertex at
    [x = -1], [z = -1]. *)
Lemma geometryFromHeightfield_square_cell_witness :
  exists g,
    Heightfield.geometryFromHeightfield 1 1 [0; 0; 0; 0]%float (RAPIER.mkVector 2 1 2)
    = JS.Returned g
    /\ Heightfield.vertices g !! 0%nat = Some (-1)%float
    /\ Heightfield.vertices g !! 2%nat = Some (-1)%float.
Proof.
  eexists. split; [vm_compute; reflexivity|].
  destruct (geometryFromHeightfield_square_cell 1 [0; 0; 0; 0]%float
              (RAPIER.mkVector 2 1 2) _ 0 0 ltac:(vm_compute; reflexivity)
              ltac:(lia) ltac:(lia))
    as (_ & [Hx Hz] & _).
  split; [exact Hx | exact Hz].
Defined.
